(** * Conversation orchestration of the role-play chat backend

    A shallow embedding of [backend/app/llm_service.py] and of the chat and
    audio handlers of [backend/main.py], and the properties of turn
    assembly, message ordering and error handling proved about them. *)

From stdpp Require Import base option list strings gmap sorting.
From Stdlib Require Import ZArith Lia.

Local Open Scope string_scope.
Local Open Scope list_scope.

(** ** Values shared by both source files *)

(** [uuid.UUID]: a 128-bit value; only equality is ever used. *)
Definition UUID := N.
Bind Scope N_scope with UUID.

(** Python [bytes]. *)
Definition bytes := list Byte.byte.

(** The exceptions the handlers raise or catch. [HTTPException] is the one
    FastAPI turns into a response with that status code; all of them are
    subclasses of Python's [Exception]. *)
Inductive Exception :=
| HTTPException (status_code : Z) (detail : string)
| HTTPStatusError (status_code : Z)
| IntegrityError
| KeyError (key : string)
| IndexError
| AttributeError
| ValueError (msg : string)
| OtherError (msg : string).

Definition HTTP_200_OK : Z := 200.
Definition HTTP_201_CREATED : Z := 201.
Definition HTTP_204_NO_CONTENT : Z := 204.
Definition HTTP_400_BAD_REQUEST : Z := 400.
Definition HTTP_404_NOT_FOUND : Z := 404.
Definition HTTP_500_INTERNAL_SERVER_ERROR : Z := 500.

(** The status FastAPI answers with: an [HTTPException] carries its own,
    any other exception escaping a handler is a 500, a normal return gives
    the route's success status. *)
Definition response_status {A} (success : Z) (r : Exception + A) : Z :=
  match r with
  | inr _ => success
  | inl (HTTPException code _) => code
  | inl _ => HTTP_500_INTERNAL_SERVER_ERROR
  end.

(** ** llm_service.py: the context assembler *)

(** One element of [messages]: [{"role": ..., "content": ...}]. The
    content is a Python [str] or, for a stored message without text,
    [None]. *)
Record Turn := mkTurn { role : string; content : option string }.

Definition system_turn (s : string) : Turn := mkTurn "system" (Some s).
Definition user_turn (s : string) : Turn := mkTurn "user" (Some s).
Definition assistant_turn (s : string) : Turn := mkTurn "assistant" (Some s).

(** [messages.append(x)]. *)
Definition append {A} (messages : list A) (x : A) : list A := messages ++ [x].

(** Body of the loop over [few_shot_examples]: an example is a dict, and
    each side is emitted only when its key is in the dict. *)
Definition append_example (messages : list Turn) (example : gmap string string)
  : list Turn :=
  let messages :=
    match example !! "user" with
    | Some u => append messages (user_turn u)
    | None => messages
    end in
  match example !! "ai" with
  | Some a => append messages (assistant_turn a)
  | None => messages
  end.

(** [if few_shot_examples: for example in few_shot_examples: ...];
    [None] and the empty list are both falsy. *)
Definition append_examples (messages : list Turn)
    (few_shot_examples : option (list (gmap string string))) : list Turn :=
  match few_shot_examples with
  | None | Some [] => messages
  | Some examples => fold_left append_example examples messages
  end.

(** Body of the loop over [chat_history]: [msg["sender_type"]] and
    [msg["content"]] raise [KeyError] on a dict without the key. The
    values of a history dict are what the message row holds, a [str] or
    [None]. *)
Definition append_history_msg (messages : list Turn)
    (msg : gmap string (option string)) : Exception + list Turn :=
  match msg !! "sender_type" with
  | None => inl (KeyError "sender_type")
  | Some sender_type =>
      let role_type :=
        if decide (sender_type = Some "user") then "user" else "assistant" in
      match msg !! "content" with
      | None => inl (KeyError "content")
      | Some c => inr (append messages (mkTurn role_type c))
      end
  end.

Fixpoint append_history (messages : list Turn)
    (chat_history : list (gmap string (option string)))
  : Exception + list Turn :=
  match chat_history with
  | [] => inr messages
  | msg :: rest =>
      match append_history_msg messages msg with
      | inl e => inl e
      | inr messages => append_history messages rest
      end
  end.

(** The part of [get_qwen_response] before the [try]: the turn list. *)
Definition build_messages (system_prompt : string)
    (chat_history : list (gmap string (option string)))
    (user_message : string)
    (few_shot_examples : option (list (gmap string string)))
  : Exception + list Turn :=
  let messages := [] in
  let messages := append messages (system_turn system_prompt) in
  let messages := append_examples messages few_shot_examples in
  match append_history messages chat_history with
  | inl e => inl e
  | inr messages => inr (append messages (user_turn user_message))
  end.

(** ** The relational store behind [db: Session] *)

(** Rows, with the columns the handlers read or write. The content of a
    message is what the handler passes to [models.Message]: a text, or
    [None] when [get_qwen_response] returned the first choice of a completion
    that carries no content. *)
Record Role := mkRole {
  Role_id : UUID;
  Role_name : string;
  Role_description : string;
  Role_system_prompt : string;
  Role_few_shot_examples : option (list (gmap string string));
  Role_is_active : bool }.

Record Chat := mkChat {
  Chat_id : UUID;
  Chat_user_id : UUID;
  Chat_role_id : UUID;
  Chat_title : string }.

Record Message := mkMessage {
  Message_chat_id : UUID;
  Message_sender_type : string;
  Message_content : option string;
  Message_order_in_chat : nat }.

(** The committed tables, rows in insertion order. *)
Record Store := mkStore {
  tbl_roles : list Role;
  tbl_chats : list Chat;
  tbl_messages : list Message }.

(** What a session holds between [db.add]/[db.delete] and [db.commit]. *)
Inductive Pending :=
| AddRole (r : Role)
| AddChat (c : Chat)
| AddMessage (m : Message)
| DeleteChat (c : Chat).

(** JSON values exchanged with the speech endpoints. *)
#[warnings="-register-all"]
Inductive Json :=
| JNull
| JBool (b : bool)
| JNumber (z : Z)
| JString (s : string)
| JArray (items : list Json)
| JObject (fields : list (string * Json)).

(** Python truthiness of a decoded JSON value ([not x] is its negation). *)
Definition truthy (j : Json) : bool :=
  match j with
  | JNull => false
  | JBool b => b
  | JNumber z => negb (Z.eqb z 0)
  | JString s => negb (String.eqb s "")
  | JArray l => match l with [] => false | _ => true end
  | JObject l => match l with [] => false | _ => true end
  end.

Fixpoint assoc (k : string) (fields : list (string * Json)) : option Json :=
  match fields with
  | [] => None
  | (k', v) :: rest => if String.eqb k k' then Some v else assoc k rest
  end.

(** [d.get(key, default)]; on a value that is no dict the attribute is
    missing. *)
Definition dict_get (d : Json) (key : string) (default : Json)
  : Exception + Json :=
  match d with
  | JObject fields => inr (from_option id default (assoc key fields))
  | _ => inl AttributeError
  end.

(** The request of [client.chat.completions.create]. The sampling
    temperature is the constant 0.7 in every call and is left out. *)
Record ChatRequest := mkChatRequest {
  req_model : string;
  req_messages : list Turn;
  req_max_tokens : Z }.

(** An [httpx] response: its status and what [response.json()] gives. *)
Record HttpResponse := mkHttpResponse {
  resp_status_code : Z;
  resp_json : Exception + Json }.

(** Everything outside the process that one request talks to: the
    chat-completion endpoint (for each of [completion.choices] its
    [message.content], a [str] or [None]; or the exception it raises), the object store, the speech endpoints, the
    library calls whose result the handlers only pass on ([exc_str e] is
    Python's [str(e)], [uuid4] the text of a drawn [uuid.uuid4()]), and the
    settings read from the environment at import. *)
Record Env := mkEnv {
  chat_completions_create : ChatRequest -> Exception + list (option string);
  upload_token : string -> string -> Z -> Exception + string;
  put_data : string -> string -> bytes -> Exception + (bool * Z);
  http_post : string -> list (string * string) -> Json -> Exception + HttpResponse;
  b64decode : Json -> Exception + bytes;
  uuid4 : string;
  read_file : string -> Exception + bytes;
  basename : string -> string;
  exc_str : Exception -> string;
  QINIU_OPENAI_API_KEY : string;
  QINIU_OPENAI_BASE_URL : string;
  QINIU_BUCKET_NAME : string;
  QINIU_DOMAIN : string }.

(** What an outside observer can see of a running handler: each commit
    with the tables as committed, and each remote call with its request. *)
Inductive Event :=
| Committed (s : Store)
| ChatCompletionCall (req : ChatRequest)
| PutDataCall (key : string) (data : bytes)
| HttpPostCall (url : string) (payload : Json).

Record World := mkWorld {
  store : Store;
  session : list Pending;
  trace : list Event }.

(** ** The handler monad: state, exceptions, trace *)

Definition M (A : Type) : Type := World -> (Exception + A) * World.

#[global] Instance M_ret : MRet M := λ A x w, (inr x, w).
#[global] Instance M_bind : MBind M := λ A B f m w,
  match m w with
  | (inl e, w') => (inl e, w')
  | (inr x, w') => f x w'
  end.

Definition raise {A} (e : Exception) : M A := λ w, (inl e, w).

Definition lift {A} (r : Exception + A) : M A := λ w, (r, w).

(** [try: body except Exception as e: handler e]. *)
Definition try_except {A} (body : M A) (handler : Exception -> M A) : M A :=
  λ w, match body w with
       | (inl e, w') => handler e w'
       | (inr x, w') => (inr x, w')
       end.

Definition emit (ev : Event) : M unit :=
  λ w, (inr (), mkWorld (store w) (session w) (trace w ++ [ev])).

Fixpoint for_each {A} (f : A -> M unit) (l : list A) : M unit :=
  match l with
  | [] => mret ()
  | x :: rest => f x ;; for_each f rest
  end.

(** [db.query(...)...]: reads the committed tables. Every handler commits
    what it staged before it queries again, so nothing staged is ever
    pending when a query runs. *)
Definition query {A} (q : Store -> A) : M A := λ w, (inr (q (store w)), w).

(** [db.add(row)] and [db.delete(row)]. *)
Definition db_stage (p : Pending) : M unit :=
  λ w, (inr (), mkWorld (store w) (session w ++ [p]) (trace w)).

(** Modelled from the spec: the table declarations of [app/models.py] are
    not among the sources. Users, roles and chats have a "unique id", so
    inserting a second row with a stored id is refused; a chat is "deleted
    (cascades its messages)". *)
Definition flush (s : Store) (p : Pending) : Exception + Store :=
  match p with
  | AddRole r =>
      if decide (Role_id r ∈ Role_id <$> tbl_roles s) then inl IntegrityError
      else inr (mkStore (tbl_roles s ++ [r]) (tbl_chats s) (tbl_messages s))
  | AddChat c =>
      if decide (Chat_id c ∈ Chat_id <$> tbl_chats s) then inl IntegrityError
      else inr (mkStore (tbl_roles s) (tbl_chats s ++ [c]) (tbl_messages s))
  | AddMessage m =>
      inr (mkStore (tbl_roles s) (tbl_chats s) (tbl_messages s ++ [m]))
  | DeleteChat c =>
      inr (mkStore (tbl_roles s)
             (filter (λ c', Chat_id c' ≠ Chat_id c) (tbl_chats s))
             (filter (λ m, Message_chat_id m ≠ Chat_id c) (tbl_messages s)))
  end.

Fixpoint flush_all (s : Store) (ps : list Pending) : Exception + Store :=
  match ps with
  | [] => inr s
  | p :: rest =>
      match flush s p with
      | inl e => inl e
      | inr s' => flush_all s' rest
      end
  end.

(** [db.commit()]: the staged changes reach the tables together or, when
    one is refused, not at all. *)
Definition db_commit : M unit :=
  λ w, match flush_all (store w) (session w) with
       | inl e => (inl e, mkWorld (store w) [] (trace w))
       | inr s' => (inr (), mkWorld s' [] (trace w ++ [Committed s']))
       end.

(** [.order_by(key)], ties kept in table order. *)
Fixpoint insert_by {A} (key : A -> nat) (x : A) (l : list A) : list A :=
  match l with
  | [] => [x]
  | y :: rest =>
      if decide (key x ≤ key y)%nat then x :: l else y :: insert_by key x rest
  end.

Definition order_by {A} (key : A -> nat) (l : list A) : list A :=
  foldr (insert_by key) [] l.

(** ** llm_service.py: the remote calls *)

Definition FALLBACK_REPLY : string :=
  "Sorry, I am unable to respond at the moment.".

Definition call_chat_completions (env : Env) (req : ChatRequest)
  : M (list (option string)) :=
  emit (ChatCompletionCall req) ;; lift (chat_completions_create env req).

(** [return completion.choices[0].message.content] hands the content on
    unchecked: the result is a text or [None]. *)
Definition get_qwen_response (env : Env) (system_prompt : string)
    (chat_history : list (gmap string (option string)))
    (user_message : string)
    (few_shot_examples : option (list (gmap string string)))
    (model : string) : M (option string) :=
  let max_tokens := 500%Z in
  messages ← lift (build_messages system_prompt chat_history user_message
                     few_shot_examples);
  try_except
    (choices ← call_chat_completions env
                 (mkChatRequest model messages max_tokens);
     match choices with
     | [] => raise IndexError
     | first :: _ => mret first
     end)
    (λ e, mret (Some FALLBACK_REPLY)).

Definition call_http_post (env : Env) (url : string)
    (headers : list (string * string)) (payload : Json) : M HttpResponse :=
  emit (HttpPostCall url payload) ;; lift (http_post env url headers payload).

(** [response.raise_for_status()]: anything but a 2xx status raises. *)
Definition is_2xx (code : Z) : bool := (200 <=? code)%Z && (code <? 300)%Z.

Definition raise_for_status (response : HttpResponse) : M unit :=
  let code := resp_status_code response in
  if is_2xx code then mret () else raise (HTTPStatusError code).

Definition api_headers (env : Env) : list (string * string) :=
  [("Authorization", "Bearer " +:+ QINIU_OPENAI_API_KEY env);
   ("Content-Type", "application/json")].

Definition upload_audio_to_qiniu_kodo (env : Env) (audio_content : bytes)
    (filename : string) : M (option string) :=
  try_except
    (token ← lift (upload_token env (QINIU_BUCKET_NAME env) filename 3600%Z);
     emit (PutDataCall filename audio_content) ;;
     '(ret, info_status_code) ← lift (put_data env token filename audio_content);
     if ret && (info_status_code =? 200)%Z
     then mret (Some ("https://" +:+ QINIU_DOMAIN env +:+ "/" +:+ filename))
     else mret None)
    (λ e, mret None).

(** The argument of [get_asr_transcript]: [Union[str, io.BytesIO]]. *)
Inductive AudioSource :=
| FilePath (path : string)
| BytesIO (value : bytes).

Definition get_asr_transcript (env : Env) (audio_file_like : AudioSource)
  : M Json :=
  try_except
    ('(audio_content, filename) ←
       match audio_file_like with
       | BytesIO value => mret (value, "audio-" +:+ uuid4 env +:+ ".webm")
       | FilePath path =>
           audio_content ← lift (read_file env path);
           mret (audio_content, basename env path)
       end;
     public_url ← upload_audio_to_qiniu_kodo env audio_content filename;
     match public_url with
     | None | Some "" => mret (JString "")
     | Some public_url =>
         let url := QINIU_OPENAI_BASE_URL env +:+ "/voice/asr" in
         let payload :=
           JObject [("audio", JObject [("url", JString public_url);
                                        ("encoding", JString "webm")]);
                    ("request", JObject [("language", JString "zh");
                                          ("profanity_filter", JBool false)])] in
         response ← call_http_post env url (api_headers env) payload;
         raise_for_status response ;;
         response_data ← lift (resp_json response);
         data ← lift (dict_get response_data "data" (JObject []));
         transcript ← lift (dict_get data "text" JNull);
         if negb (truthy transcript) then mret (JString "")
         else mret transcript
     end)
    (λ e, match e with
          | HTTPStatusError _ => mret (JString "")
          | _ => mret (JString "")
          end).

(** The request of [get_tts_audio]: its [url] and [payload]. *)
Definition tts_url (env : Env) : string :=
  QINIU_OPENAI_BASE_URL env +:+ "/voice/tts".

Definition tts_payload (voice_type text : string) : Json :=
  JObject [("audio", JObject [("voice_type", JString voice_type);
                               ("encoding", JString "mp3");
                               ("speed_ratio", JNumber 1)]);
           ("request", JObject [("text", JString text)])].

Definition get_tts_audio (env : Env) (text : string) : M bytes :=
  let voice_type := "qiniu_zh_female_tmjxxy" in
  let url := tts_url env in
  let payload := tts_payload voice_type text in
  try_except
    (response ← call_http_post env url (api_headers env) payload;
     raise_for_status response ;;
     response_data ← lift (resp_json response);
     base64_audio ← lift (dict_get response_data "data" JNull);
     if negb (truthy base64_audio)
     then raise (ValueError "No audio data found in TTS response.")
     else lift (b64decode env base64_audio))
    (λ e, match e with
          | HTTPStatusError _ => mret []
          | _ => mret []
          end).

(** ** main.py: the chat handlers *)

(** [schemas.ChatCreate]. *)
Record ChatCreate := mkChatCreate {
  cc_role_id : UUID;
  cc_title : option string }.

(** [schemas.RoleCreate]. *)
Record RoleCreate := mkRoleCreate {
  rc_name : string;
  rc_description : string;
  rc_system_prompt : string;
  rc_few_shot_examples : option (list (gmap string string));
  rc_is_active : bool }.

(** In the handlers below [new_id] is the uuid the id column draws for
    the row being inserted. *)
Definition create_role (new_id : UUID) (role : RoleCreate) : M Role :=
  let db_role :=
    mkRole new_id (rc_name role) (rc_description role)
      (rc_system_prompt role) (rc_few_shot_examples role)
      (rc_is_active role) in
  db_stage (AddRole db_role) ;;
  db_commit ;;
  mret db_role.

Definition get_roles : M (list Role) :=
  query (λ s, filter (λ r, Role_is_active r = true) (tbl_roles s)).

Definition get_role (role_id : UUID) : M Role :=
  role ← query (λ s,
    head (filter (λ r, Role_id r = role_id ∧ Role_is_active r = true)
            (tbl_roles s)));
  match role with
  | None => raise (HTTPException HTTP_404_NOT_FOUND "Role not found or inactive")
  | Some role => mret role
  end.

Definition greeting (role_name : string) : string :=
  "Hello, I am " +:+ role_name +:+ ". How can I help you today?".

Definition create_chat (new_id : UUID) (chat_create : ChatCreate)
    (current_user : UUID) : M Chat :=
  role ← query (λ s,
    head (filter (λ r, Role_id r = cc_role_id chat_create
                       ∧ Role_is_active r = true) (tbl_roles s)));
  match role with
  | None => raise (HTTPException HTTP_404_NOT_FOUND "Role not found or inactive")
  | Some role =>
      let db_chat :=
        mkChat new_id current_user (cc_role_id chat_create)
          (match cc_title chat_create with
           | None | Some "" => "Chat with " +:+ Role_name role
           | Some title => title
           end) in
      db_stage (AddChat db_chat) ;;
      db_commit ;;
      let initial_ai_message_content := greeting (Role_name role) in
      let initial_ai_message :=
        mkMessage (Chat_id db_chat) "ai" (Some initial_ai_message_content) 0 in
      db_stage (AddMessage initial_ai_message) ;;
      db_commit ;;
      mret db_chat
  end.

(** The messages of one chat, in table order. *)
Definition chat_messages (chat_id : UUID) (s : Store) : list Message :=
  filter (λ m, Message_chat_id m = chat_id) (tbl_messages s).

Definition find_owned_chat (chat_id current_user : UUID) (s : Store)
  : option Chat :=
  head (filter (λ c, Chat_id c = chat_id ∧ Chat_user_id c = current_user)
          (tbl_chats s)).

Definition get_chat_messages (chat_id current_user : UUID) : M (list Message) :=
  chat ← query (find_owned_chat chat_id current_user);
  match chat with
  | None =>
      raise (HTTPException HTTP_404_NOT_FOUND "Chat not found or unauthorized")
  | Some _ =>
      query (λ s, order_by Message_order_in_chat (chat_messages chat_id s))
  end.

(** The dict [send_message] hands to the assembler for a stored message. *)
Definition history_entry (msg : Message) : gmap string (option string) :=
  {[ "sender_type" := Some (Message_sender_type msg);
     "content" := Message_content msg ]}.

Definition send_message (env : Env) (chat_id : UUID) (message : string)
    (current_user : UUID) : M Message :=
  chat ← query (find_owned_chat chat_id current_user);
  match chat with
  | None =>
      raise (HTTPException HTTP_404_NOT_FOUND "Chat not found or unauthorized")
  | Some chat =>
      current_message_count ← query (λ s, length (chat_messages chat_id s));
      let db_user_message :=
        mkMessage chat_id "user" (Some message) current_message_count in
      db_stage (AddMessage db_user_message) ;;
      db_commit ;;
      role ← query (λ s,
        head (filter (λ r, Role_id r = Chat_role_id chat) (tbl_roles s)));
      match role with
      | None =>
          raise (HTTPException HTTP_500_INTERNAL_SERVER_ERROR
                   "Associated role not found")
      | Some role =>
          chat_history_db ← query (λ s,
            order_by Message_order_in_chat (chat_messages chat_id s));
          let llm_chat_history :=
            fold_left (λ acc msg, append acc (history_entry msg))
              chat_history_db [] in
          ai_response_content ←
            get_qwen_response env (Role_system_prompt role) llm_chat_history
              message (Role_few_shot_examples role) "deepseek-v3";
          let db_ai_message :=
            mkMessage chat_id "ai" ai_response_content
              (current_message_count + 1) in
          db_stage (AddMessage db_ai_message) ;;
          db_commit ;;
          mret db_ai_message
      end
  end.

(** The handler returns [Response(status_code=204)]; its status is kept. *)
Definition delete_chats_bulk (env : Env) (chat_ids : list UUID)
    (current_user : UUID) : M Z :=
  try_except
    (chats_to_delete ← query (λ s,
       filter (λ c, Chat_id c ∈ chat_ids ∧ Chat_user_id c = current_user)
         (tbl_chats s));
     match chats_to_delete with
     | [] =>
         raise (HTTPException HTTP_404_NOT_FOUND
                  "No chats found for deletion or unauthorized")
     | _ =>
         for_each (λ chat, db_stage (DeleteChat chat)) chats_to_delete ;;
         db_commit ;;
         mret HTTP_204_NO_CONTENT
     end)
    (λ e,
       raise (HTTPException HTTP_500_INTERNAL_SERVER_ERROR
                ("Internal server error during bulk deletion: " +:+ exc_str env e))).

(** ** main.py: the audio handlers *)

(** [UploadFile]: the part's content type and file name (either may be
    absent) and its bytes. *)
Record UploadFile := mkUploadFile {
  uf_content_type : option string;
  uf_filename : option string;
  uf_body : bytes }.

Definition transcribe_audio (env : Env) (file : UploadFile) : M Json :=
  match uf_content_type file with
  | None => raise AttributeError
  | Some content_type =>
      if negb (String.prefix "audio/" content_type)
      then raise (HTTPException HTTP_400_BAD_REQUEST
                    "Only audio files are allowed")
      else
        let audio_content := uf_body file in
        let audio_file_like := BytesIO audio_content in
        transcript_text ← get_asr_transcript env audio_file_like;
        mret (JObject [("transcript", transcript_text)])
  end.

(** The handler returns a [StreamingResponse] over the bytes; the bytes
    are kept. *)
Definition speak_text (env : Env) (input_text : string) : M bytes :=
  audio_content ← get_tts_audio env input_text;
  match audio_content with
  | [] => raise (HTTPException HTTP_500_INTERNAL_SERVER_ERROR
                   "Failed to generate audio")
  | _ => mret audio_content
  end.

(** ** Serving requests one after the other *)

Inductive Request :=
| CreateRole (new_id : UUID) (role : RoleCreate)
| CreateChat (new_id : UUID) (chat_create : ChatCreate) (current_user : UUID)
| SendMessage (env : Env) (chat_id : UUID) (message : string)
    (current_user : UUID)
| DeleteChatsBulk (env : Env) (chat_ids : list UUID) (current_user : UUID).

(** A request gets a session of its own on the committed tables. *)
Definition open_session (s : Store) : World := mkWorld s [] [].

(** The tables once the handler is done, whatever it answered. *)
Definition serve (s : Store) (r : Request) : Store :=
  match r with
  | CreateRole new_id role =>
      store (create_role new_id role (open_session s)).2
  | CreateChat new_id chat_create current_user =>
      store (create_chat new_id chat_create current_user (open_session s)).2
  | SendMessage env chat_id message current_user =>
      store (send_message env chat_id message current_user (open_session s)).2
  | DeleteChatsBulk env chat_ids current_user =>
      store (delete_chats_bulk env chat_ids current_user (open_session s)).2
  end.

Definition serve_all (s : Store) (rs : list Request) : Store :=
  fold_left serve rs s.

(** The tables at start-up: the roles on record, no chat yet. *)
Definition startup (roles : list Role) : Store := mkStore roles [] [].

(** The committed tables an observer can see while a handler runs. *)
Definition snapshots (t : list Event) : list Store :=
  omap (λ ev, match ev with Committed s => Some s | _ => None end) t.

(** * Vocabulary of the statements *)

(** ** The turn list *)

(** The turns one few-shot example stands for. *)
Definition example_turns (example : gmap string string) : list Turn :=
  from_option (λ u, [user_turn u]) [] (example !! "user")
  ++ from_option (λ a, [assistant_turn a]) [] (example !! "ai").

(** The turn one stored message stands for. *)
Definition history_turn (msg : Message) : Turn :=
  mkTurn (if decide (Message_sender_type msg = "user")
          then "user" else "assistant")
         (Message_content msg).

(** The turn list in the order the specification fixes: system prompt,
    examples, history, new message. *)
Definition turns_in_order (system_prompt : string)
    (few_shot_examples : option (list (gmap string string)))
    (history : list Message) (user_message : string) : list Turn :=
  [system_turn system_prompt]
  ++ (default [] few_shot_examples ≫= example_turns)
  ++ (history_turn <$> history)
  ++ [user_turn user_message].

(** The text [get_qwen_response] returns for an outcome of the remote
    call. *)
Definition reply_or_fallback (outcome : Exception + list (option string))
  : option string :=
  match outcome with
  | inr (first :: _) => first
  | _ => Some FALLBACK_REPLY
  end.

(** ** Changes of the tables *)

(** The tables with one more row, and without a chat and its messages. *)
Definition with_role (s : Store) (r : Role) : Store :=
  mkStore (tbl_roles s ++ [r]) (tbl_chats s) (tbl_messages s).

Definition with_chat (s : Store) (c : Chat) : Store :=
  mkStore (tbl_roles s) (tbl_chats s ++ [c]) (tbl_messages s).

Definition with_message (s : Store) (m : Message) : Store :=
  mkStore (tbl_roles s) (tbl_chats s) (tbl_messages s ++ [m]).

Definition without_chat (s : Store) (chat_id : UUID) : Store :=
  mkStore (tbl_roles s)
    (filter (λ c, Chat_id c ≠ chat_id) (tbl_chats s))
    (filter (λ m, Message_chat_id m ≠ chat_id) (tbl_messages s)).

(** The chats of a bulk-delete request that the caller owns. *)
Definition owned_subset (chat_ids : list UUID) (current_user : UUID)
    (s : Store) : list Chat :=
  filter (λ c, Chat_id c ∈ chat_ids ∧ Chat_user_id c = current_user)
    (tbl_chats s).

Definition NOT_FOUND_FOR_DELETION : Exception :=
  HTTPException HTTP_404_NOT_FOUND
    "No chats found for deletion or unauthorized".

(** ** The ordering invariant *)

(** The messages of chat [c] start with the greeting of its role at
    position 0 and carry the positions 0, 1, ..., count-1 in that order. *)
Definition greeted_and_ordered (s : Store) (c : Chat) : Prop :=
  ∃ r rest,
    r ∈ tbl_roles s ∧ Role_id r = Chat_role_id c
    ∧ chat_messages (Chat_id c) s
      = mkMessage (Chat_id c) "ai" (Some (greeting (Role_name r))) 0 :: rest
    ∧ Message_order_in_chat <$> chat_messages (Chat_id c) s
      = seq 0 (length (chat_messages (Chat_id c) s)).

(** Chat ids are distinct, every message belongs to a stored chat, and
    every stored chat is greeted and ordered. *)
Definition consistent (s : Store) : Prop :=
  NoDup (Chat_id <$> tbl_chats s)
  ∧ (∀ m, m ∈ tbl_messages s → Message_chat_id m ∈ (Chat_id <$> tbl_chats s))
  ∧ (∀ c, c ∈ tbl_chats s → greeted_and_ordered s c).

(** [text] contains [part]. *)
Definition contains (text part : string) : Prop :=
  ∃ pre post, text = pre +:+ part +:+ post.

(** The greeting of role [R] is stored for chat [c]: a message of the chat
    at position 0 whose content contains the role's name. *)
Definition greeting_persisted (s : Store) (c : Chat) (R : Role) : Prop :=
  ∃ m text, m ∈ chat_messages (Chat_id c) s
            ∧ Message_order_in_chat m = 0
            ∧ Message_content m = Some text
            ∧ contains text (Role_name R).

(** ** Outcomes of a synthesis call *)

(** The request [get_tts_audio] posts for [text], answered by [env]. *)
Definition tts_post (env : Env) (text : string) : Exception + HttpResponse :=
  http_post env (tts_url env) (api_headers env)
    (tts_payload "qiniu_zh_female_tmjxxy" text).

(** How a synthesis call can end: the ways it fails, and success with the
    decoded audio. *)
Inductive TtsResult :=
| TtsFailed
| TtsDecoded (audio : bytes).

Inductive tts_call (env : Env) (text : string) : TtsResult → Prop :=
| tts_network_error e :
    tts_post env text = inl e → tts_call env text TtsFailed
| tts_bad_status response :
    tts_post env text = inr response →
    is_2xx (resp_status_code response) = false →
    tts_call env text TtsFailed
| tts_malformed_body response e :
    tts_post env text = inr response →
    is_2xx (resp_status_code response) = true →
    resp_json response = inl e →
    tts_call env text TtsFailed
| tts_body_not_object response body :
    tts_post env text = inr response →
    is_2xx (resp_status_code response) = true →
    resp_json response = inr body →
    (∀ fields, body ≠ JObject fields) →
    tts_call env text TtsFailed
| tts_missing_data response fields :
    tts_post env text = inr response →
    is_2xx (resp_status_code response) = true →
    resp_json response = inr (JObject fields) →
    truthy (from_option id JNull (assoc "data" fields)) = false →
    tts_call env text TtsFailed
| tts_not_base64 response fields data e :
    tts_post env text = inr response →
    is_2xx (resp_status_code response) = true →
    resp_json response = inr (JObject fields) →
    assoc "data" fields = Some data → truthy data = true →
    b64decode env data = inl e →
    tts_call env text TtsFailed
| tts_decoded response fields data audio :
    tts_post env text = inr response →
    is_2xx (resp_status_code response) = true →
    resp_json response = inr (JObject fields) →
    assoc "data" fields = Some data → truthy data = true →
    b64decode env data = inr audio →
    tts_call env text (TtsDecoded audio).

(** ** Example data *)

Definition spidey : Role :=
  mkRole 1 "Spider-Man" "Friendly neighbourhood hero" "You are Spider-Man."
    (Some [ {[ "user" := "Who are you?"; "ai" := "Your friendly neighbour." ]} ])
    true.

(** A remote side on which every call fails. *)
Definition unreachable : Env :=
  mkEnv (λ _, inl (OtherError "timeout"))
    (λ _ _ _, inl (OtherError "timeout"))
    (λ _ _ _, inl (OtherError "timeout"))
    (λ _ _ _, inl (OtherError "timeout"))
    (λ _, inl (OtherError "not base64"))
    "00000000-0000-4000-8000-000000000000"
    (λ _, inl (OtherError "no such file"))
    (λ path, path)
    (λ _, "error")
    "key" "https://api.example" "bucket" "cdn.example".

(** A remote side whose speech endpoint answers with the base64 text of
    the three bytes "ABC". *)
Definition speaking : Env :=
  mkEnv (λ _, inr [Some "Hi!"])
    (λ _ _ _, inr "token")
    (λ _ _ _, inr (true, 200%Z))
    (λ _ _ _, inr (mkHttpResponse 200
                     (inr (JObject [("data", JString "QUJD")]))))
    (λ data, match data with
             | JString "QUJD" => inr [Byte.x41; Byte.x42; Byte.x43]
             | _ => inl (OtherError "Incorrect padding")
             end)
    "00000000-0000-4000-8000-000000000000"
    (λ _, inl (OtherError "no such file"))
    (λ path, path)
    (λ _, "error")
    "key" "https://api.example" "bucket" "cdn.example".

(** A remote side whose completion has one choice, without content. *)
Definition wordless : Env :=
  mkEnv (λ _, inr [None])
    (λ _ _ _, inl (OtherError "timeout"))
    (λ _ _ _, inl (OtherError "timeout"))
    (λ _ _ _, inl (OtherError "timeout"))
    (λ _, inl (OtherError "not base64"))
    "00000000-0000-4000-8000-000000000000"
    (λ _, inl (OtherError "no such file"))
    (λ path, path)
    (λ _, "error")
    "key" "https://api.example" "bucket" "cdn.example".

(** User 7 has opened a chat with Spider-Man. *)
Definition one_chat : Store :=
  serve_all (startup [spidey]) [CreateChat 10 (mkChatCreate 1 None) 7].

Definition spidey_chat : Chat := mkChat 10 7 1 "Chat with Spider-Man".

(** A remote side whose transcription endpoint hears "hello". *)
Definition transcribing : Env :=
  mkEnv (λ _, inr [])
    (λ _ _ _, inr "token")
    (λ _ _ _, inr (true, 200%Z))
    (λ _ _ _, inr (mkHttpResponse 200
                     (inr (JObject
                             [("data", JObject [("text", JString "hello")])]))))
    (λ _, inl (OtherError "not base64"))
    "00000000-0000-4000-8000-000000000000"
    (λ _, inl (OtherError "no such file"))
    (λ path, path)
    (λ _, "error")
    "key" "https://api.example" "bucket" "cdn.example".

(** ** Vocabulary of the further properties *)

(** A turn that is not a system turn. *)
Definition dialogue_turn (t : Turn) : Prop :=
  role t = "user" ∨ role t = "assistant".

(** The request [get_asr_transcript] posts for an uploaded file. *)
Definition asr_url (env : Env) : string :=
  QINIU_OPENAI_BASE_URL env +:+ "/voice/asr".

Definition asr_payload (public_url : string) : Json :=
  JObject [("audio", JObject [("url", JString public_url);
                               ("encoding", JString "webm")]);
           ("request", JObject [("language", JString "zh");
                                 ("profanity_filter", JBool false)])].

(** The name and the public address [get_asr_transcript] gives to bytes
    recorded in memory. *)
Definition recording_name (env : Env) : string :=
  "audio-" +:+ uuid4 env +:+ ".webm".

Definition public_url_of (env : Env) (filename : string) : string :=
  "https://" +:+ QINIU_DOMAIN env +:+ "/" +:+ filename.

(** The object store accepts the upload of [audio_content] as
    [filename]. *)
Definition upload_accepted (env : Env) (audio_content : bytes)
    (filename : string) : Prop :=
  ∃ token,
    upload_token env (QINIU_BUCKET_NAME env) filename 3600%Z = inr token
    ∧ put_data env token filename audio_content = inr (true, 200%Z).

(** The answer to an unknown or inactive role, and to a chat that is
    unknown or not the caller's. *)
Definition ROLE_NOT_FOUND : Exception :=
  HTTPException HTTP_404_NOT_FOUND "Role not found or inactive".

Definition CHAT_NOT_FOUND : Exception :=
  HTTPException HTTP_404_NOT_FOUND "Chat not found or unauthorized".

(** ** Proof tools *)

(** Unfolds the handler monad so that a handler runs by computation. *)
Ltac run_handler :=
  unfold mbind, M_bind, mret, M_ret, query, db_stage, db_commit, raise,
    lift, emit, try_except, open_session; simpl.

#[local] Arguments get_qwen_response : simpl never.

(** * Properties *)

(** ** The turn list *)

Lemma append_example_eq messages example :
  append_example messages example = messages ++ example_turns example.
Proof.
  unfold append_example, example_turns, append.
  destruct (example !! "user"), (example !! "ai"); simpl;
    rewrite <- ?app_assoc, ?app_nil_r; reflexivity.
Qed.

Lemma fold_append_example examples : ∀ messages,
  fold_left append_example examples messages
  = messages ++ (examples ≫= example_turns).
Proof.
  induction examples as [|example examples IH]; intros messages; simpl.
  - by rewrite app_nil_r.
  - by rewrite IH, append_example_eq, <- app_assoc.
Qed.

Lemma append_examples_eq messages few_shot_examples :
  append_examples messages few_shot_examples
  = messages ++ (default [] few_shot_examples ≫= example_turns).
Proof.
  destruct few_shot_examples as [[|example examples]|]; simpl;
    rewrite ?app_nil_r; try reflexivity.
  by rewrite fold_append_example, append_example_eq, <- app_assoc.
Qed.

Lemma history_entry_sender msg :
  history_entry msg !! "sender_type" = Some (Some (Message_sender_type msg)).
Proof. unfold history_entry. by rewrite lookup_insert_eq. Qed.

Lemma history_entry_content msg :
  history_entry msg !! "content" = Some (Message_content msg).
Proof.
  unfold history_entry.
  rewrite lookup_insert_ne by discriminate. by rewrite lookup_singleton_eq.
Qed.

Lemma append_history_entries history : ∀ messages,
  append_history messages (history_entry <$> history)
  = inr (messages ++ (history_turn <$> history)).
Proof.
  induction history as [|msg history IH]; intros messages; simpl.
  - by rewrite app_nil_r.
  - unfold append_history_msg.
    rewrite history_entry_sender, history_entry_content, IH.
    unfold append, history_turn. rewrite <- app_assoc. simpl.
    repeat f_equal. repeat case_decide; congruence.
Qed.

Lemma build_messages_eq system_prompt few_shot_examples history user_message :
  build_messages system_prompt (history_entry <$> history) user_message
    few_shot_examples
  = inr (turns_in_order system_prompt few_shot_examples history user_message).
Proof.
  unfold build_messages, turns_in_order, append.
  rewrite append_examples_eq, append_history_entries.
  simpl. by rewrite <- !app_assoc.
Qed.

(** The loop of [send_message] that turns the stored rows into dicts. *)
Lemma llm_chat_history_eq (chat_history_db : list Message) : ∀ acc,
  fold_left (λ acc msg, append acc (history_entry msg)) chat_history_db acc
  = acc ++ (history_entry <$> chat_history_db).
Proof.
  induction chat_history_db as [|msg rest IH]; intros acc; simpl.
  - by rewrite app_nil_r.
  - rewrite IH. unfold append. by rewrite <- app_assoc.
Qed.

(** C1. For every system prompt, optional list of few-shot examples, chat
    history and new message text, [get_qwen_response] submits exactly one
    request whose turn list is: the system turn (role "system", the prompt
    as content), then the turns of each example in order (user side with
    role "user", then assistant side with role "assistant"), then one turn
    per history message in order with sender kind "user" as role "user" and
    "ai" as role "assistant", then the turn with role "user" and the new
    text; and nothing else. *)
Theorem get_qwen_response_turn_order env system_prompt few_shot_examples
    (history : list Message) user_message model w :
  build_messages system_prompt (history_entry <$> history) user_message
    few_shot_examples
  = inr ([mkTurn "system" (Some system_prompt)]
         ++ (default [] few_shot_examples ≫= example_turns)
         ++ (history_turn <$> history)
         ++ [mkTurn "user" (Some user_message)])
  ∧ trace (get_qwen_response env system_prompt (history_entry <$> history)
             user_message few_shot_examples model w).2
    = trace w ++ [ChatCompletionCall
                    (mkChatRequest model
                       ([mkTurn "system" (Some system_prompt)]
                        ++ (default [] few_shot_examples ≫= example_turns)
                        ++ (history_turn <$> history)
                        ++ [mkTurn "user" (Some user_message)]) 500)]
  ∧ (∀ example,
       example_turns example
       = match example !! "user" with
         | Some u => [mkTurn "user" (Some u)]
         | None => []
         end
         ++ match example !! "ai" with
            | Some a => [mkTurn "assistant" (Some a)]
            | None => []
            end)
  ∧ (∀ u a, example_turns {[ "user" := u; "ai" := a ]}
            = [mkTurn "user" (Some u); mkTurn "assistant" (Some a)])
  ∧ (∀ chat_id text n,
       history_turn (mkMessage chat_id "user" text n) = mkTurn "user" text
       ∧ history_turn (mkMessage chat_id "ai" text n)
         = mkTurn "assistant" text).
Proof.
  split; [apply build_messages_eq|].
  split; [|split; [|split]].
  - unfold get_qwen_response, mbind, M_bind, lift, try_except,
      call_chat_completions.
    rewrite build_messages_eq. simpl.
    destruct (chat_completions_create env _) as [e|[|first rest]];
      reflexivity.
  - intros example. unfold example_turns.
    by destruct (example !! "user"), (example !! "ai").
  - intros u a. unfold example_turns.
    rewrite lookup_insert_eq, lookup_insert_ne by discriminate.
    by rewrite lookup_singleton_eq.
  - intros chat_id text n. split; reflexivity.
Qed.

(** The worked example of the specification: prompt S, one example
    (u1, a1), history "hi" / "hey", new message "bye". *)
Example context_assembly_example :
  build_messages "S"
    (history_entry <$> [mkMessage 10 "user" (Some "hi") 0;
                        mkMessage 10 "ai" (Some "hey") 1])
    "bye" (Some [ {[ "user" := "u1"; "ai" := "a1" ]} ])
  = inr [mkTurn "system" (Some "S"); mkTurn "user" (Some "u1");
         mkTurn "assistant" (Some "a1"); mkTurn "user" (Some "hi");
         mkTurn "assistant" (Some "hey"); mkTurn "user" (Some "bye")].
Proof. vm_compute. reflexivity. Qed.

(** C7. A few-shot example with only a "user" key contributes exactly one
    turn, with role "user" and the example's text, and no assistant turn;
    with only an "ai" key it contributes only the turn with role
    "assistant" and the example's text. *)
Theorem one_sided_example_one_turn system_prompt pre post
    (only_user only_ai : gmap string string) u a history user_message :
  only_user !! "user" = Some u → only_user !! "ai" = None →
  only_ai !! "user" = None → only_ai !! "ai" = Some a →
  build_messages system_prompt (history_entry <$> history) user_message
    (Some (pre ++ only_user :: post))
  = inr ([mkTurn "system" (Some system_prompt)]
         ++ (pre ≫= example_turns) ++ [mkTurn "user" (Some u)]
         ++ (post ≫= example_turns)
         ++ (history_turn <$> history)
         ++ [mkTurn "user" (Some user_message)])
  ∧ build_messages system_prompt (history_entry <$> history) user_message
      (Some (pre ++ only_ai :: post))
    = inr ([mkTurn "system" (Some system_prompt)]
           ++ (pre ≫= example_turns) ++ [mkTurn "assistant" (Some a)]
           ++ (post ≫= example_turns)
           ++ (history_turn <$> history)
           ++ [mkTurn "user" (Some user_message)]).
Proof.
  intros Hu1 Hu2 Ha1 Ha2.
  rewrite !build_messages_eq. unfold turns_in_order. simpl.
  rewrite !bind_app, !bind_cons.
  assert (example_turns only_user = [mkTurn "user" (Some u)]) as ->
    by (unfold example_turns; by rewrite Hu1, Hu2).
  assert (example_turns only_ai = [mkTurn "assistant" (Some a)]) as ->
    by (unfold example_turns; by rewrite Ha1, Ha2).
  by rewrite <- !app_assoc.
Qed.

Lemma one_sided_example_one_turn_witness :
  build_messages "S" [] "bye" (Some [ {[ "user" := "u1" ]} ])
  = inr [mkTurn "system" (Some "S"); mkTurn "user" (Some "u1");
         mkTurn "user" (Some "bye")]
  ∧ build_messages "S" [] "bye" (Some [ {[ "ai" := "a1" ]} ])
    = inr [mkTurn "system" (Some "S"); mkTurn "assistant" (Some "a1");
           mkTurn "user" (Some "bye")].
Proof.
  exact (one_sided_example_one_turn "S" [] []
           {[ "user" := "u1" ]} {[ "ai" := "a1" ]} "u1" "a1" [] "bye"
           eq_refl eq_refl eq_refl eq_refl).
Defined.

(** ** What the handlers do to the tables *)

Lemma get_qwen_response_run env system_prompt history user_message
    few_shot_examples model w :
  let req := mkChatRequest model
               (turns_in_order system_prompt few_shot_examples history
                  user_message) 500 in
  get_qwen_response env system_prompt (history_entry <$> history)
    user_message few_shot_examples model w
  = (inr (reply_or_fallback (chat_completions_create env req)),
     mkWorld (store w) (session w) (trace w ++ [ChatCompletionCall req])).
Proof.
  unfold get_qwen_response, call_chat_completions. run_handler.
  rewrite build_messages_eq.
  destruct (chat_completions_create env _) as [e|[|first rest]]; reflexivity.
Qed.

Lemma send_message_run env chat_id message current_user s chat role :
  find_owned_chat chat_id current_user s = Some chat →
  head (filter (λ r, Role_id r = Chat_role_id chat) (tbl_roles s)) = Some role →
  let user_msg :=
    mkMessage chat_id "user" (Some message)
      (length (chat_messages chat_id s)) in
  let s1 := with_message s user_msg in
  let req :=
    mkChatRequest "deepseek-v3"
      (turns_in_order (Role_system_prompt role) (Role_few_shot_examples role)
         (order_by Message_order_in_chat (chat_messages chat_id s1)) message)
      500 in
  let ai_msg :=
    mkMessage chat_id "ai"
      (reply_or_fallback (chat_completions_create env req))
      (length (chat_messages chat_id s) + 1) in
  send_message env chat_id message current_user (open_session s)
  = (inr ai_msg,
     mkWorld (with_message s1 ai_msg) []
       [Committed s1; ChatCompletionCall req; Committed (with_message s1 ai_msg)]).
Proof.
  intros Hchat Hrole. unfold send_message. run_handler.
  rewrite Hchat. simpl. rewrite Hrole. simpl.
  rewrite llm_chat_history_eq. simpl.
  rewrite get_qwen_response_run. reflexivity.
Qed.

(** The tables [send_message] leaves behind are the old ones, or the old
    ones with the user message, or those with the reply as well. *)
Lemma send_message_store env chat_id message current_user s :
  let user_msg :=
    mkMessage chat_id "user" (Some message)
      (length (chat_messages chat_id s)) in
  let after := store (send_message env chat_id message current_user
                        (open_session s)).2 in
  after = s
  ∨ ∃ chat, find_owned_chat chat_id current_user s = Some chat
      ∧ (after = with_message s user_msg
         ∨ ∃ reply, after = with_message (with_message s user_msg)
                              (mkMessage chat_id "ai" reply
                                 (length (chat_messages chat_id s) + 1))).
Proof.
  simpl.
  destruct (find_owned_chat chat_id current_user s) as [chat|] eqn:Hchat.
  - right. exists chat. split; [done|].
    destruct (head (filter (λ r, Role_id r = Chat_role_id chat) (tbl_roles s)))
      as [role|] eqn:Hrole.
    + right. rewrite (send_message_run _ _ _ _ _ _ _ Hchat Hrole). simpl. eauto.
    + left. unfold send_message. run_handler.
      rewrite Hchat. simpl. rewrite Hrole. reflexivity.
  - left. unfold send_message. run_handler. rewrite Hchat. by destruct s.
Qed.

Lemma create_chat_store new_id chat_create current_user s :
  let after := store (create_chat new_id chat_create current_user
                        (open_session s)).2 in
  after = s
  ∨ ∃ role title,
      role ∈ tbl_roles s ∧ Role_id role = cc_role_id chat_create
      ∧ (new_id ∉ Chat_id <$> tbl_chats s)
      ∧ after = with_message
                  (with_chat s (mkChat new_id current_user
                                  (cc_role_id chat_create) title))
                  (mkMessage new_id "ai" (Some (greeting (Role_name role))) 0).
Proof.
  simpl. unfold create_chat. run_handler.
  destruct (head (filter _ (tbl_roles s))) as [role|] eqn:Hrole; simpl.
  - apply head_Some_elem_of, list_elem_of_filter in Hrole as [[Hid _] Hin].
    case_decide; simpl.
    + left. by destruct s.
    + right. eauto 10.
  - left. by destruct s.
Qed.

Lemma create_role_store new_id role s :
  let after := store (create_role new_id role (open_session s)).2 in
  after = s ∨ ∃ r, after = with_role s r.
Proof.
  simpl. unfold create_role. run_handler.
  case_decide; simpl; [left; by destruct s | right; eauto].
Qed.

Lemma for_each_stage_delete (chats_to_delete : list Chat) : ∀ w,
  for_each (λ chat, db_stage (DeleteChat chat)) chats_to_delete w
  = (inr (),
     mkWorld (store w) (session w ++ (DeleteChat <$> chats_to_delete))
       (trace w)).
Proof.
  induction chats_to_delete as [|chat rest IH]; intros w; simpl.
  - rewrite app_nil_r. by destruct w.
  - run_handler. rewrite IH. simpl. by rewrite <- app_assoc.
Qed.

Lemma flush_all_deletes (chats_to_delete : list Chat) : ∀ s,
  flush_all s (DeleteChat <$> chats_to_delete)
  = inr (fold_left without_chat (Chat_id <$> chats_to_delete) s).
Proof.
  induction chats_to_delete as [|chat rest IH]; intros s; simpl; [done|].
  apply IH.
Qed.

Lemma delete_chats_bulk_run env chat_ids current_user s :
  delete_chats_bulk env chat_ids current_user (open_session s)
  = match owned_subset chat_ids current_user s with
    | [] =>
        (inl (HTTPException HTTP_500_INTERNAL_SERVER_ERROR
                ("Internal server error during bulk deletion: "
                 +:+ exc_str env NOT_FOUND_FOR_DELETION)),
         open_session s)
    | owned =>
        let s' := fold_left without_chat (Chat_id <$> owned) s in
        (inr HTTP_204_NO_CONTENT, mkWorld s' [] [Committed s'])
    end.
Proof.
  unfold delete_chats_bulk, owned_subset. run_handler.
  destruct (filter _ (tbl_chats s)) as [|chat rest]; [reflexivity|].
  change (db_stage (DeleteChat chat) _) with
    (inr () : Exception + unit, mkWorld s [DeleteChat chat] []).
  cbv beta iota.
  rewrite for_each_stage_delete. simpl.
  rewrite (flush_all_deletes rest). reflexivity.
Qed.

(** ** The ordering invariant *)

Lemma consistent_startup roles : consistent (startup roles).
Proof.
  split; [constructor|].
  split; simpl; intros x Hx; by apply elem_of_nil in Hx.
Qed.

Lemma NoDup_fmap_filter {A B} (f : A → B) (P : A → Prop)
    `{!∀ x, Decision (P x)} (l : list A) :
  NoDup (f <$> l) → NoDup (f <$> filter P l).
Proof.
  induction l as [|x l IH]; simpl; [done|].
  intros [Hx Hl]%NoDup_cons. rewrite filter_cons.
  case_decide; [|auto]. simpl. apply NoDup_cons. split; [|auto].
  intros (y & Hy & [_ Hin]%list_elem_of_filter)%list_elem_of_fmap.
  apply Hx, list_elem_of_fmap. eauto.
Qed.

Lemma consistent_with_role s r : consistent s → consistent (with_role s r).
Proof.
  intros (Hnd & Hm & Hc). split; [exact Hnd|]. split; [exact Hm|].
  intros c Hin. destruct (Hc c Hin) as (r0 & rest & Hr & Hid & Hms & Hord).
  exists r0, rest. simpl. rewrite elem_of_app. auto.
Qed.

Lemma chat_messages_with_message s m chat_id :
  chat_messages chat_id (with_message s m)
  = chat_messages chat_id s
    ++ (if decide (Message_chat_id m = chat_id) then [m] else []).
Proof. unfold chat_messages. simpl. by rewrite filter_app. Qed.

Lemma consistent_with_message s c sender text :
  consistent s → c ∈ tbl_chats s →
  consistent (with_message s
                (mkMessage (Chat_id c) sender text
                   (length (chat_messages (Chat_id c) s)))).
Proof.
  intros (Hnd & Hm & Hc) Hin. split; [exact Hnd|]. split.
  - simpl. intros m [Hold| ->%list_elem_of_singleton]%elem_of_app; [auto|].
    simpl. by apply list_elem_of_fmap_2.
  - intros c' Hin'. simpl in Hin'.
    destruct (Hc c' Hin') as (r & rest & Hr & Hid & Hms & Hord).
    unfold greeted_and_ordered.
    rewrite (chat_messages_with_message s _ (Chat_id c')). simpl.
    case_decide as Hsame.
    + exists r, (rest ++ [mkMessage (Chat_id c) sender text
                             (length (chat_messages (Chat_id c) s))]).
      repeat split; [done|done|by rewrite Hms|].
      rewrite fmap_app, length_app, Hord, Hsame. simpl.
      by rewrite Nat.add_1_r, seq_S.
    + exists r, rest. by rewrite !app_nil_r.
Qed.

Lemma consistent_new_chat s r new_id current_user title :
  consistent s → r ∈ tbl_roles s → new_id ∉ (Chat_id <$> tbl_chats s) →
  consistent (with_message
                (with_chat s (mkChat new_id current_user (Role_id r) title))
                (mkMessage new_id "ai" (Some (greeting (Role_name r))) 0)).
Proof.
  intros (Hnd & Hm & Hc) Hr Hfresh.
  assert (chat_messages new_id s = []) as Hnone.
  { unfold chat_messages. destruct (filter _ _) as [|m ms] eqn:Hf; [done|].
    assert (m ∈ filter (λ m, Message_chat_id m = new_id) (tbl_messages s))
      as [Hid Hin]%list_elem_of_filter by (rewrite Hf; left).
    apply Hm in Hin. by rewrite Hid in Hin. }
  split.
  { simpl. rewrite fmap_app. apply NoDup_app. split; [done|].
    split; [|apply NoDup_singleton].
    intros x Hx ->%list_elem_of_singleton. done. }
  split.
  - simpl. intros m [Hold| ->%list_elem_of_singleton]%elem_of_app.
    + rewrite fmap_app, elem_of_app. auto.
    + rewrite fmap_app, elem_of_app. right. simpl. left.
  - simpl. intros c [Hold| ->%list_elem_of_singleton]%elem_of_app.
    + destruct (Hc c Hold) as (r0 & rest & Hr0 & Hid & Hms & Hord).
      exists r0, rest.
      rewrite (chat_messages_with_message _ _ (Chat_id c)). simpl.
      rewrite decide_False, app_nil_r.
      * by unfold chat_messages in *.
      * intros ->. apply Hfresh. by apply list_elem_of_fmap_2.
    + exists r, []. simpl.
      rewrite (chat_messages_with_message _ _ new_id). simpl.
      rewrite decide_True by done.
      unfold chat_messages in *. simpl. rewrite Hnone. by simpl.
Qed.

Lemma consistent_without_chat s chat_id :
  consistent s → consistent (without_chat s chat_id).
Proof.
  intros (Hnd & Hm & Hc). split; [by apply NoDup_fmap_filter|]. split; simpl.
  - intros m [Hne Hin]%list_elem_of_filter.
    apply Hm, list_elem_of_fmap in Hin as (c & Hid & Hin).
    apply list_elem_of_fmap. exists c. split; [done|].
    apply list_elem_of_filter. split; [congruence|done].
  - intros c [Hne Hin]%list_elem_of_filter.
    destruct (Hc c Hin) as (r & rest & Hr & Hid & Hms & Hord).
    assert (chat_messages (Chat_id c) (without_chat s chat_id)
            = chat_messages (Chat_id c) s) as Hsame.
    { unfold chat_messages. simpl. rewrite list_filter_filter.
      apply list_filter_iff. intros m. split; [tauto|].
      intros Hm'. split; [done|]. by rewrite Hm'. }
    exists r, rest. by rewrite Hsame.
Qed.

Lemma consistent_without_chats chat_ids : ∀ s,
  consistent s → consistent (fold_left without_chat chat_ids s).
Proof.
  induction chat_ids as [|chat_id rest IH]; intros s Hs; simpl; [done|].
  by apply IH, consistent_without_chat.
Qed.

Lemma find_owned_chat_Some chat_id current_user s chat :
  find_owned_chat chat_id current_user s = Some chat →
  chat ∈ tbl_chats s ∧ Chat_id chat = chat_id
  ∧ Chat_user_id chat = current_user.
Proof.
  intros [[Hid Hu] Hin]%head_Some_elem_of%list_elem_of_filter. done.
Qed.

(** Serving a request keeps the tables consistent. *)
Lemma consistent_serve s r : consistent s → consistent (serve s r).
Proof.
  intros Hs. destruct r as [new_id role|new_id chat_create current_user
                            |env chat_id message current_user
                            |env chat_ids current_user]; simpl.
  - destruct (create_role_store new_id role s) as [->|[r ->]];
      [done|by apply consistent_with_role].
  - destruct (create_chat_store new_id chat_create current_user s)
      as [->|(r & title & Hr & Hid & Hfresh & ->)]; [done|].
    rewrite <- Hid. by apply consistent_new_chat.
  - destruct (send_message_store env chat_id message current_user s)
      as [->|(chat & Hchat & Hafter)]; [done|].
    apply find_owned_chat_Some in Hchat as (Hin & <- & _).
    pose proof (consistent_with_message s chat "user" (Some message) Hs Hin)
      as Hs1.
    destruct Hafter as [->|[reply ->]]; [done|].
    pose proof (consistent_with_message _ chat "ai" reply Hs1 Hin) as Hs2.
    rewrite (chat_messages_with_message s _ (Chat_id chat)) in Hs2.
    simpl in Hs2. rewrite decide_True, length_app in Hs2 by done.
    exact Hs2.
  - rewrite delete_chats_bulk_run.
    destruct (owned_subset chat_ids current_user s) as [|chat rest]; [done|].
    by apply consistent_without_chats.
Qed.

Lemma consistent_serve_all rs : ∀ s,
  consistent s → consistent (serve_all s rs).
Proof.
  induction rs as [|r rs IH]; intros s Hs; simpl; [done|].
  by apply IH, consistent_serve.
Qed.

Lemma chat_messages_fresh s new_id :
  consistent s → new_id ∉ (Chat_id <$> tbl_chats s) →
  chat_messages new_id s = [].
Proof.
  intros (_ & Hm & _) Hfresh. unfold chat_messages.
  destruct (filter _ _) as [|m ms] eqn:Hf; [done|].
  assert (m ∈ filter (λ m, Message_chat_id m = new_id) (tbl_messages s))
    as [Hid Hin]%list_elem_of_filter by (rewrite Hf; left).
  apply Hm in Hin. by rewrite Hid in Hin.
Qed.

Lemma head_filter_elem {A} (P : A → Prop) `{!∀ x, Decision (P x)}
    (l : list A) x :
  x ∈ l → P x → ∃ y, head (filter P l) = Some y ∧ P y ∧ y ∈ l.
Proof.
  intros Hin HP.
  destruct (filter P l) as [|y rest] eqn:Hf.
  - assert (x ∈ filter P l) as Hx by (apply list_elem_of_filter; done).
    rewrite Hf in Hx. by apply elem_of_nil in Hx.
  - exists y. split; [done|].
    apply (list_elem_of_filter P l y). rewrite Hf. left.
Qed.

Lemma greeting_contains_name name : contains (greeting name) name.
Proof. by exists "Hello, I am ", ". How can I help you today?". Qed.

(** In consistent tables every chat has, at position 0, the "ai" greeting
    of a role on record with the chat's role id. *)
Lemma consistent_first_message s c :
  consistent s → c ∈ tbl_chats s →
  ∃ m R, chat_messages (Chat_id c) s !! 0 = Some m
         ∧ Message_order_in_chat m = 0 ∧ Message_sender_type m = "ai"
         ∧ R ∈ tbl_roles s ∧ Role_id R = Chat_role_id c
         ∧ Message_content m = Some (greeting (Role_name R)).
Proof.
  intros (_ & _ & Hc) Hin.
  destruct (Hc c Hin) as (r & rest & Hr & Hid & Hms & _).
  eexists _, r. rewrite Hms. simpl. eauto 10.
Qed.

(** ** Message ordering *)

Lemma order_by_in_order {A} (key : A → nat) (l : list A) : ∀ i,
  key <$> l = seq i (length l) → order_by key l = l.
Proof.
  induction l as [|x l IH]; intros i Hkeys; [done|].
  simpl in Hkeys. injection Hkeys as Hx Hl.
  unfold order_by in *. simpl. rewrite (IH (S i) Hl).
  destruct l as [|y l]; [done|]. simpl.
  simpl in Hl. injection Hl as Hy _.
  rewrite decide_True by lia. done.
Qed.

(** C2. After any sequence of requests served one after the other from
    start-up (role creation, chat creation, sending messages, bulk
    deletion), the messages of every stored chat carry exactly the position
    indices 0, 1, ..., count-1, and the message at position 0 has sender
    kind "ai". *)
Theorem position_indices_gapless roles requests c :
  c ∈ tbl_chats (serve_all (startup roles) requests) →
  let ms := chat_messages (Chat_id c) (serve_all (startup roles) requests) in
  Message_order_in_chat <$> ms = seq 0 (length ms)
  ∧ (∃ m0, ms !! 0 = Some m0 ∧ Message_order_in_chat m0 = 0
           ∧ Message_sender_type m0 = "ai")
  ∧ (∀ m, m ∈ ms → Message_order_in_chat m = 0 → Message_sender_type m = "ai").
Proof.
  intros Hin ms.
  pose proof (consistent_serve_all requests _ (consistent_startup roles))
    as Hs.
  destruct Hs as (_ & _ & Hc).
  destruct (Hc c Hin) as (r & rest & Hr & Hid & Hms & Hord).
  fold ms in Hms, Hord. split; [exact Hord|]. split.
  - rewrite Hms. simpl. eauto.
  - intros m [i Hi]%list_elem_of_lookup Hzero.
    assert ((Message_order_in_chat <$> ms) !! i = Some 0) as Hlook
      by (rewrite list_lookup_fmap, Hi; simpl; by rewrite Hzero).
    rewrite Hord in Hlook. apply lookup_seq in Hlook as [Hi0 _].
    simpl in Hi0. subst i. rewrite Hms in Hi. simpl in Hi.
    by injection Hi as <-.
Qed.

Lemma position_indices_gapless_witness :
  Message_order_in_chat <$> chat_messages 10 one_chat
  = seq 0 (length (chat_messages 10 one_chat))
  ∧ (∃ m0, chat_messages 10 one_chat !! 0 = Some m0
           ∧ Message_order_in_chat m0 = 0 ∧ Message_sender_type m0 = "ai")
  ∧ (∀ m, m ∈ chat_messages 10 one_chat → Message_order_in_chat m = 0 →
          Message_sender_type m = "ai").
Proof.
  apply (position_indices_gapless [spidey]
           [CreateChat 10 (mkChatCreate 1 None) 7] spidey_chat).
  vm_compute. left.
Defined.

(** Listing the messages of an owned chat returns them as stored, which is
    already the order of their positions. *)
Lemma get_chat_messages_in_order roles requests chat_id current_user chat :
  let s := serve_all (startup roles) requests in
  find_owned_chat chat_id current_user s = Some chat →
  get_chat_messages chat_id current_user (open_session s)
  = (inr (chat_messages chat_id s), open_session s).
Proof.
  intros s Hchat.
  pose proof (consistent_serve_all requests _ (consistent_startup roles))
    as (_ & _ & Hc). fold s in Hc.
  destruct (find_owned_chat_Some _ _ _ _ Hchat) as (Hin & Hid & _).
  destruct (Hc chat Hin) as (_ & _ & _ & _ & _ & Hord). rewrite Hid in Hord.
  unfold get_chat_messages. run_handler. rewrite Hchat. simpl.
  by rewrite (order_by_in_order _ _ 0 Hord).
Qed.

(** ** Chat creation and its greeting *)

(** C3, as stated, fails: [create_chat] commits the chat row first and the
    greeting in a second commit, so the tables committed in between hold
    the chat without any message. *)
Lemma create_chat_observed_without_greeting :
  ¬ (∀ observed,
       observed ∈ snapshots
                    (trace (create_chat 10 (mkChatCreate 1 None) 7
                              (open_session (startup [spidey]))).2) →
       ∀ c, c ∈ tbl_chats observed → greeting_persisted observed c spidey).
Proof.
  intros Hall.
  destruct (Hall (with_chat (startup [spidey]) spidey_chat)
              ltac:(vm_compute; left) spidey_chat ltac:(vm_compute; left))
    as (m & text & Hm & _).
  vm_compute in Hm. by apply elem_of_nil in Hm.
Qed.

(** C3, amended. When [create_chat] returns the chat for an active role R,
    it has made exactly two commits: the chat row alone, then the greeting.
    From the second commit on, the chat row and one message at position 0
    whose content contains R's name are both stored; and in the tables
    between requests, before and after this one, no chat is without its
    position-0 greeting naming a role on record. *)
Theorem create_chat_greeting_after_return roles requests new_id chat_create
    current_user chat w' :
  create_chat new_id chat_create current_user
    (open_session (serve_all (startup roles) requests)) = (inr chat, w') →
  let s := serve_all (startup roles) requests in
  ∃ R, R ∈ tbl_roles s ∧ Role_id R = cc_role_id chat_create
       ∧ Role_is_active R = true
       ∧ let hello :=
           mkMessage (Chat_id chat) "ai"
             (Some ("Hello, I am " +:+ Role_name R
                    +:+ ". How can I help you today?"))
             0 in
         snapshots (trace w')
         = [with_chat s chat; with_message (with_chat s chat) hello]
         ∧ store w' = with_message (with_chat s chat) hello
         ∧ chat ∈ tbl_chats (store w')
         ∧ chat_messages (Chat_id chat) (store w') = [hello]
         ∧ greeting_persisted (store w') chat R
         ∧ ∀ st c, st = s ∨ st = store w' → c ∈ tbl_chats st →
             ∃ R', R' ∈ tbl_roles st ∧ Role_id R' = Chat_role_id c
                   ∧ greeting_persisted st c R'.
Proof.
  intros Hrun s.
  pose proof (consistent_serve_all requests _ (consistent_startup roles))
    as Hs. fold s in Hs, Hrun.
  pose proof (consistent_serve s
                (CreateChat new_id chat_create current_user) Hs) as Hs'.
  simpl in Hs'. rewrite Hrun in Hs'. simpl in Hs'.
  unfold create_chat in Hrun. revert Hrun. run_handler.
  destruct (head (filter _ (tbl_roles s))) as [R|] eqn:HR; simpl;
    [|discriminate].
  apply head_Some_elem_of, list_elem_of_filter in HR as [[Hid Hactive] Hin].
  case_decide as Hfresh; simpl; [discriminate|].
  set (db_chat := mkChat new_id _ _ _).
  intros [= <- <-]. simpl in *.
  assert (chat_messages new_id
            (mkStore (tbl_roles s) (tbl_chats s ++ [db_chat])
               (tbl_messages s
                ++ [mkMessage new_id "ai" (Some (greeting (Role_name R))) 0]))
          = [mkMessage new_id "ai" (Some (greeting (Role_name R))) 0])
    as Hhello.
  { pose proof (chat_messages_fresh s new_id Hs Hfresh) as Hnone.
    unfold chat_messages in *. simpl. rewrite filter_app, Hnone. simpl.
    by rewrite filter_cons_True. }
  exists R. repeat split; try done.
  - rewrite elem_of_app. right. left.
  - eexists _, _. change (Chat_id db_chat) with new_id. rewrite Hhello.
    split; [left|]. split; [done|]. split; [done|].
    apply greeting_contains_name.
  - intros st c Hst Hc.
    assert (consistent st) as Hcons by (destruct Hst as [->| ->]; done).
    destruct (consistent_first_message st c Hcons Hc)
      as (m & R' & Hm & Hzero & _ & HR' & Hid' & Hcontent).
    exists R'. split; [done|]. split; [done|].
    exists m, (greeting (Role_name R')).
    split; [by eapply list_elem_of_lookup_2|].
    split; [done|]. split; [done|]. apply greeting_contains_name.
Qed.

Lemma create_chat_greeting_after_return_witness :
  ∃ R, R ∈ [spidey] ∧ greeting_persisted one_chat spidey_chat R.
Proof.
  destruct (create_chat_greeting_after_return [spidey] [] 10
              (mkChatCreate 1 None) 7 spidey_chat
              (create_chat 10 (mkChatCreate 1 None) 7
                 (open_session (startup [spidey]))).2 eq_refl)
    as (R & HR & _ & _ & _ & _ & _ & _ & Hgreeting & _).
  exists R. split; [exact HR|exact Hgreeting].
Defined.

(** ** Bulk deletion *)

Lemma filter_everything {A} (P : A → Prop) `{!∀ x, Decision (P x)}
    (l : list A) :
  (∀ x, x ∈ l → P x) → filter P l = l.
Proof.
  induction l as [|x l IH]; intros HP; [done|].
  rewrite filter_cons_True by (apply HP; left).
  f_equal. apply IH. intros y Hy. apply HP. by right.
Qed.

Lemma fold_without_chat chat_ids : ∀ s,
  fold_left without_chat chat_ids s
  = mkStore (tbl_roles s)
      (filter (λ c, Chat_id c ∉ chat_ids) (tbl_chats s))
      (filter (λ m, Message_chat_id m ∉ chat_ids) (tbl_messages s)).
Proof.
  induction chat_ids as [|chat_id rest IH]; intros s; simpl.
  - rewrite !filter_everything by (intros x _; apply not_elem_of_nil).
    by destruct s.
  - rewrite IH. simpl. rewrite !list_filter_filter. f_equal;
      apply list_filter_iff; intros x; rewrite not_elem_of_cons; tauto.
Qed.

Lemma NoDup_fmap_eq {A B} (f : A → B) (l : list A) x y :
  NoDup (f <$> l) → x ∈ l → y ∈ l → f x = f y → x = y.
Proof.
  induction l as [|z l IH]; simpl; [by intros _ ?%elem_of_nil|].
  intros [Hz Hl]%NoDup_cons [->|Hx]%elem_of_cons [->|Hy]%elem_of_cons Heq;
    [done| | |by apply IH].
  - exfalso. apply Hz. rewrite Heq. by apply list_elem_of_fmap_2.
  - exfalso. apply Hz. rewrite <- Heq. by apply list_elem_of_fmap_2.
Qed.

(** What bulk deletion does when the caller owns at least one of the
    requested chats: it answers 204, every stored chat that is requested
    and owned by the caller is gone together with its messages, and every
    other chat stays with all its messages. *)
Lemma delete_chats_bulk_only_owned roles requests env chat_ids current_user :
  let s := serve_all (startup roles) requests in
  let run := delete_chats_bulk env chat_ids current_user (open_session s) in
  owned_subset chat_ids current_user s ≠ [] →
  run.1 = inr HTTP_204_NO_CONTENT
  ∧ ∀ c, c ∈ tbl_chats s →
      if decide (Chat_id c ∈ chat_ids ∧ Chat_user_id c = current_user)
      then (c ∉ tbl_chats (store run.2))
           ∧ chat_messages (Chat_id c) (store run.2) = []
      else c ∈ tbl_chats (store run.2)
           ∧ chat_messages (Chat_id c) (store run.2)
             = chat_messages (Chat_id c) s.
Proof.
  intros s run Hsome.
  pose proof (consistent_serve_all requests _ (consistent_startup roles))
    as (Hnd & _ & _). fold s in Hnd.
  unfold run. rewrite delete_chats_bulk_run.
  destruct (owned_subset chat_ids current_user s) as [|c0 owned] eqn:Howned;
    [done|].
  rewrite <- Howned. clear c0 owned Howned Hsome. simpl.
  split; [done|]. rewrite fold_without_chat. simpl.
  assert (∀ c, c ∈ tbl_chats s →
            Chat_id c ∈ (Chat_id <$> owned_subset chat_ids current_user s)
            ↔ Chat_id c ∈ chat_ids ∧ Chat_user_id c = current_user)
    as Hdeleted.
  { intros c Hc. unfold owned_subset. rewrite list_elem_of_fmap. split.
    - intros (c' & Heq & [Hown Hc']%list_elem_of_filter).
      by rewrite (NoDup_fmap_eq Chat_id _ c c' Hnd Hc Hc' Heq).
    - intros Hown. exists c. split; [done|].
      by apply list_elem_of_filter. }
  intros c Hc. specialize (Hdeleted c Hc). unfold chat_messages. simpl.
  rewrite list_filter_filter. case_decide as Hown.
  - split.
    + intros [Hkeep _]%list_elem_of_filter. tauto.
    + destruct (filter _ (tbl_messages s)) as [|m ms] eqn:Hf; [done|].
      assert (m ∈ filter (λ a, Message_chat_id a = Chat_id c
                ∧ Message_chat_id a
                  ∉ (Chat_id <$> owned_subset chat_ids current_user s))
                (tbl_messages s))
        as [[Hid Hkeep] _]%list_elem_of_filter by (rewrite Hf; left).
      rewrite Hid in Hkeep. tauto.
  - split.
    + apply list_elem_of_filter. tauto.
    + apply list_filter_iff. intros m. split; [tauto|].
      intros Hid. split; [done|]. rewrite Hid. tauto.
Qed.

(** C4. When the caller owns none of the requested chats, the handler
    raises its 404 inside the [try], the [except Exception] clause catches
    it, and the caller gets a 500; nothing is deleted. *)
Theorem delete_chats_bulk_none_owned env chat_ids current_user s :
  owned_subset chat_ids current_user s = [] →
  delete_chats_bulk env chat_ids current_user (open_session s)
  = (inl (HTTPException 500
            ("Internal server error during bulk deletion: "
             +:+ exc_str env
                   (HTTPException 404
                      "No chats found for deletion or unauthorized"))),
     open_session s)
  ∧ response_status HTTP_204_NO_CONTENT
      (delete_chats_bulk env chat_ids current_user (open_session s)).1
    = 500%Z.
Proof.
  intros Hnone. rewrite delete_chats_bulk_run, Hnone. split; reflexivity.
Qed.

Lemma delete_chats_bulk_none_owned_witness :
  response_status HTTP_204_NO_CONTENT
    (delete_chats_bulk unreachable [10%N] 8 (open_session one_chat)).1
  = 500%Z.
Proof.
  apply (delete_chats_bulk_none_owned unreachable [10%N] 8 one_chat).
  vm_compute. reflexivity.
Defined.

(** ** Sending a message *)

(** On consistent tables the history [send_message] reads back after
    storing the user message is the chat's earlier messages followed by
    that message. *)
Lemma history_after_user_message s chat text :
  consistent s → chat ∈ tbl_chats s →
  let user_msg :=
    mkMessage (Chat_id chat) "user" text
      (length (chat_messages (Chat_id chat) s)) in
  order_by Message_order_in_chat
    (chat_messages (Chat_id chat) (with_message s user_msg))
  = chat_messages (Chat_id chat) s ++ [user_msg].
Proof.
  intros Hs Hin user_msg.
  destruct (consistent_with_message s chat "user" text Hs Hin)
    as (_ & _ & Hc).
  destruct (Hc chat Hin) as (_ & _ & _ & _ & _ & Hord).
  fold user_msg in Hord. rewrite (order_by_in_order _ _ 0 Hord).
  rewrite (chat_messages_with_message s _ (Chat_id chat)). simpl.
  by rewrite decide_True.
Qed.

(** On consistent tables the role of an owned chat is on record. *)
Lemma role_of_chat_found s chat :
  consistent s → chat ∈ tbl_chats s →
  ∃ role,
    head (filter (λ r, Role_id r = Chat_role_id chat) (tbl_roles s))
    = Some role.
Proof.
  intros (_ & _ & Hc) Hin.
  destruct (Hc chat Hin) as (r & _ & Hr & Hid & _).
  destruct (head_filter_elem (λ r, Role_id r = Chat_role_id chat)
              (tbl_roles s) r Hr Hid) as (role & Hrole & _).
  eauto.
Qed.

(** C6. When no stored chat has the requested id and the caller as owner
    (the chat does not exist, or belongs to someone else), [send_message]
    raises the 404 "not found or unauthorized" and leaves the world as it
    was: the tables are unchanged, nothing is staged or committed, and no
    remote call is made. *)
Theorem send_message_not_owned_no_write env chat_id message current_user s :
  (∀ c, c ∈ tbl_chats s → Chat_id c = chat_id →
        Chat_user_id c ≠ current_user) →
  send_message env chat_id message current_user (open_session s)
  = (inl (HTTPException 404 "Chat not found or unauthorized"),
     open_session s)
  ∧ response_status HTTP_200_OK
      (send_message env chat_id message current_user (open_session s)).1
    = 404%Z
  ∧ serve s (SendMessage env chat_id message current_user) = s.
Proof.
  intros Hnot.
  assert (find_owned_chat chat_id current_user s = None) as Hnone.
  { destruct (find_owned_chat chat_id current_user s) as [c|] eqn:Hc;
      [|done].
    apply find_owned_chat_Some in Hc as (Hin & Hid & Hu).
    by destruct (Hnot c Hin Hid). }
  assert (send_message env chat_id message current_user (open_session s)
          = (inl (HTTPException 404 "Chat not found or unauthorized"),
             open_session s)) as Hrun.
  { unfold send_message. run_handler. by rewrite Hnone. }
  simpl. rewrite Hrun. done.
Qed.

Lemma send_message_not_owned_no_write_witness :
  serve one_chat (SendMessage unreachable 10 "hello" 8) = one_chat
  ∧ serve one_chat (SendMessage unreachable 11 "hello" 7) = one_chat.
Proof.
  split.
  - apply (send_message_not_owned_no_write unreachable 10 "hello" 8 one_chat).
    intros c Hc _. vm_compute in Hc.
    apply list_elem_of_singleton in Hc as ->. vm_compute. discriminate.
  - apply (send_message_not_owned_no_write unreachable 11 "hello" 7 one_chat).
    intros c Hc Hid. vm_compute in Hc.
    apply list_elem_of_singleton in Hc as ->. vm_compute in Hid.
    discriminate.
Defined.



(** C9. On an owned chat, [send_message] commits the new user message
    before it reads the history back, so the history handed to
    [get_qwen_response] ends with that message; the assembler then appends
    the same text once more, and the turn list submitted to the model ends
    with two user turns carrying the new text. *)
Theorem send_message_repeats_user_text roles requests env chat_id message
    current_user chat :
  find_owned_chat chat_id current_user (serve_all (startup roles) requests)
  = Some chat →
  let s := serve_all (startup roles) requests in
  let user_msg :=
    mkMessage chat_id "user" (Some message)
      (length (chat_messages chat_id s)) in
  ∃ role req after,
    trace (send_message env chat_id message current_user (open_session s)).2
    = [Committed (with_message s user_msg); ChatCompletionCall req;
       Committed after]
    ∧ build_messages (Role_system_prompt role)
        (history_entry <$> (chat_messages chat_id s ++ [user_msg]))
        message (Role_few_shot_examples role)
      = inr (req_messages req)
    ∧ ∃ earlier,
        req_messages req
        = earlier ++ [user_turn message; user_turn message].
Proof.
  intros Hchat s user_msg.
  pose proof (consistent_serve_all requests _ (consistent_startup roles))
    as Hs. fold s in Hs, Hchat.
  destruct (find_owned_chat_Some _ _ _ _ Hchat) as (Hin & Hid & _).
  destruct (role_of_chat_found s chat Hs Hin) as [role Hrole].
  rewrite (send_message_run _ _ _ _ _ _ _ Hchat Hrole).
  pose proof (history_after_user_message s chat (Some message) Hs Hin)
    as Hhist.
  simpl in Hhist. rewrite Hid in Hhist. fold user_msg in Hhist.
  fold user_msg. rewrite Hhist.
  eexists role, _, _. split; [reflexivity|]. simpl.
  split; [apply build_messages_eq|].
  unfold turns_in_order. rewrite fmap_app. simpl.
  exists ([system_turn (Role_system_prompt role)]
          ++ (default [] (Role_few_shot_examples role) ≫= example_turns)
          ++ (history_turn <$> chat_messages chat_id s)).
  by rewrite <- !app_assoc.
Qed.

Lemma send_message_repeats_user_text_witness :
  ∃ role req after,
    trace (send_message unreachable 10 "hello" 7 (open_session one_chat)).2
    = [Committed
         (with_message one_chat (mkMessage 10 "user" (Some "hello") 1));
       ChatCompletionCall req; Committed after]
    ∧ build_messages (Role_system_prompt role)
        (history_entry <$> (chat_messages 10 one_chat
                            ++ [mkMessage 10 "user" (Some "hello") 1]))
        "hello" (Role_few_shot_examples role)
      = inr (req_messages req)
    ∧ ∃ earlier,
        req_messages req = earlier ++ [user_turn "hello"; user_turn "hello"].
Proof.
  apply (send_message_repeats_user_text [spidey]
           [CreateChat 10 (mkChatCreate 1 None) 7] unreachable 10 "hello" 7
           spidey_chat).
  vm_compute. reflexivity.
Defined.

(** A first choice without content is not an error for
    [get_qwen_response]: it returns [None], and [send_message] stores the
    reply row with that content and returns it. *)
Example send_message_stores_missing_content :
  send_message wordless 10 "hello" 7 (open_session one_chat)
  = (inr (mkMessage 10 "ai" None 2),
     mkWorld
       (with_message
          (with_message one_chat (mkMessage 10 "user" (Some "hello") 1))
          (mkMessage 10 "ai" None 2))
       []
       [Committed
          (with_message one_chat (mkMessage 10 "user" (Some "hello") 1));
        ChatCompletionCall
          (mkChatRequest "deepseek-v3"
             [mkTurn "system" (Some "You are Spider-Man.");
              mkTurn "user" (Some "Who are you?");
              mkTurn "assistant" (Some "Your friendly neighbour.");
              mkTurn "assistant"
                (Some "Hello, I am Spider-Man. How can I help you today?");
              mkTurn "user" (Some "hello");
              mkTurn "user" (Some "hello")] 500);
        Committed
          (with_message
             (with_message one_chat (mkMessage 10 "user" (Some "hello") 1))
             (mkMessage 10 "ai" None 2))]).
Proof. vm_compute. reflexivity. Qed.

(** ** Speech synthesis *)

(** Every call ends in one of these ways. *)
Lemma tts_call_total env text : ∃ result, tts_call env text result.
Proof.
  destruct (tts_post env text) as [e|response] eqn:Hpost;
    [eauto using tts_network_error|].
  destruct (is_2xx (resp_status_code response)) eqn:Hstatus;
    [|eauto using tts_bad_status].
  destruct (resp_json response) as [e|body] eqn:Hbody;
    [eauto using tts_malformed_body|].
  destruct body as [| | | | |fields];
    try (eexists; eapply tts_body_not_object; eauto; discriminate).
  destruct (assoc "data" fields) as [data|] eqn:Hdata.
  - destruct (truthy data) eqn:Htruthy.
    + destruct (b64decode env data) as [e|audio] eqn:Hdecode;
        eauto using tts_not_base64, tts_decoded.
    + eexists. eapply tts_missing_data; eauto. by rewrite Hdata.
  - eexists. eapply tts_missing_data; eauto. by rewrite Hdata.
Qed.

(** C8. Whenever the synthesis call fails (the request raises, the status
    is not 2xx, the body is no JSON object, its "data" field is missing or
    empty, or the data does not decode) [get_tts_audio] returns zero-length
    bytes and [speak_text] raises a 500 instead of returning empty audio;
    when the call succeeds [get_tts_audio] returns the base64-decoded
    bytes. *)
Theorem get_tts_audio_results env text w result :
  tts_call env text result →
  match result with
  | TtsFailed =>
      (get_tts_audio env text w).1 = inr []
      ∧ (speak_text env text w).1
        = inl (HTTPException 500 "Failed to generate audio")
      ∧ response_status HTTP_200_OK (speak_text env text w).1 = 500%Z
  | TtsDecoded audio => (get_tts_audio env text w).1 = inr audio
  end.
Proof.
  assert (∀ r, (get_tts_audio env text w).1 = inr [] →
    (speak_text env text w).1 = r →
    r = inl (HTTPException 500 "Failed to generate audio")) as Hspeak.
  { intros r Hempty <-. unfold speak_text, mbind, M_bind.
    destruct (get_tts_audio env text w) as [[e|audio] w'];
      simpl in Hempty; [discriminate|]. by injection Hempty as ->. }
  assert ((get_tts_audio env text w).1 = inr [] →
    (get_tts_audio env text w).1 = inr []
    ∧ (speak_text env text w).1
      = inl (HTTPException 500 "Failed to generate audio")
    ∧ response_status HTTP_200_OK (speak_text env text w).1 = 500%Z)
    as Hfailed.
  { intros Hempty. split; [done|].
    rewrite (Hspeak _ Hempty eq_refl). done. }
  destruct 1 as [e Hpost|response Hpost Hstatus|response e Hpost Hstatus Hbody
                |response body Hpost Hstatus Hbody Hshape
                |response fields Hpost Hstatus Hbody Hdata
                |response fields data e Hpost Hstatus Hbody Hdata Htruthy Hdec
                |response fields data audio Hpost Hstatus Hbody Hdata Htruthy
                   Hdec];
    unfold tts_post in *;
    try apply Hfailed;
    unfold get_tts_audio, call_http_post, raise_for_status; run_handler;
    rewrite Hpost; simpl; try (rewrite Hstatus; simpl);
    try (rewrite Hbody; simpl); try reflexivity.
  - by destruct e.
  - by destruct e.
  - destruct body; try reflexivity. by destruct (Hshape fields).
  - by rewrite Hdata.
  - rewrite Hdata. simpl. rewrite Htruthy. simpl. rewrite Hdec.
    by destruct e.
  - rewrite Hdata. simpl. rewrite Htruthy. simpl. by rewrite Hdec.
Qed.

Lemma get_tts_audio_results_witness :
  ((get_tts_audio unreachable "hi" (open_session one_chat)).1 = inr []
   ∧ (speak_text unreachable "hi" (open_session one_chat)).1
     = inl (HTTPException 500 "Failed to generate audio")
   ∧ response_status HTTP_200_OK
       (speak_text unreachable "hi" (open_session one_chat)).1 = 500%Z)
  ∧ (get_tts_audio speaking "hi" (open_session one_chat)).1
    = inr [Byte.x41; Byte.x42; Byte.x43].
Proof.
  split.
  - apply (get_tts_audio_results unreachable "hi" (open_session one_chat)
             TtsFailed).
    apply (tts_network_error unreachable "hi" (OtherError "timeout")).
    reflexivity.
  - apply (get_tts_audio_results speaking "hi" (open_session one_chat)
             (TtsDecoded [Byte.x41; Byte.x42; Byte.x43])).
    apply (tts_decoded speaking "hi"
             (mkHttpResponse 200 (inr (JObject [("data", JString "QUJD")])))
             [("data", JString "QUJD")] (JString "QUJD"));
      reflexivity.
Defined.

(** ** Transcription *)

(** X22. When the uploaded file has a content type and it does not start
    with "audio/", [transcribe_audio] raises the 400 "Only audio files are
    allowed" at once: the world is as before, so nothing was uploaded to the
    object store and no request went to the transcription endpoint. *)
Theorem transcribe_audio_rejects_non_audio env file content_type w :
  uf_content_type file = Some content_type →
  String.prefix "audio/" content_type = false →
  transcribe_audio env file w
  = (inl (HTTPException 400 "Only audio files are allowed"), w)
  ∧ response_status HTTP_200_OK (transcribe_audio env file w).1 = 400%Z
  ∧ trace (transcribe_audio env file w).2 = trace w.
Proof.
  intros Htype Hprefix.
  assert (transcribe_audio env file w
          = (inl (HTTPException 400 "Only audio files are allowed"), w))
    as Hrun.
  { unfold transcribe_audio. rewrite Htype, Hprefix. reflexivity. }
  rewrite Hrun. done.
Qed.

Lemma transcribe_audio_rejects_non_audio_witness :
  transcribe_audio speaking
    (mkUploadFile (Some "text/plain") (Some "notes.txt") [Byte.x41])
    (open_session one_chat)
  = (inl (HTTPException 400 "Only audio files are allowed"),
     open_session one_chat).
Proof.
  apply (transcribe_audio_rejects_non_audio speaking
           (mkUploadFile (Some "text/plain") (Some "notes.txt") [Byte.x41])
           "text/plain" (open_session one_chat));
    reflexivity.
Defined.

(** With an audio content type the same handler does reach the object
    store and the transcription endpoint. *)
Example transcribe_audio_audio_is_uploaded :
  trace (transcribe_audio speaking
           (mkUploadFile (Some "audio/webm") (Some "a.webm") [Byte.x41])
           (open_session one_chat)).2
  = [PutDataCall "audio-00000000-0000-4000-8000-000000000000.webm" [Byte.x41];
     HttpPostCall "https://api.example/voice/asr"
       (JObject
          [("audio",
            JObject
              [("url",
                JString
                  "https://cdn.example/audio-00000000-0000-4000-8000-000000000000.webm");
               ("encoding", JString "webm")]);
           ("request",
            JObject [("language", JString "zh");
                     ("profanity_filter", JBool false)])])].
Proof. reflexivity. Qed.

(** C10. An uploaded part without a content type is not an audio file
    either, but for it the handler does not reach its 400:
    [file.content_type.startswith] fails on [None], the [AttributeError]
    escapes, and the caller gets a 500. The object store and the
    transcription endpoint are not called in this case either. *)
Theorem transcribe_audio_missing_content_type env file w :
  uf_content_type file = None →
  transcribe_audio env file w = (inl AttributeError, w)
  ∧ response_status HTTP_200_OK (transcribe_audio env file w).1 = 500%Z
  ∧ response_status HTTP_200_OK (transcribe_audio env file w).1
    ≠ HTTP_400_BAD_REQUEST
  ∧ trace (transcribe_audio env file w).2 = trace w.
Proof.
  intros Htype.
  assert (transcribe_audio env file w = (inl AttributeError, w)) as Hrun.
  { unfold transcribe_audio. by rewrite Htype. }
  rewrite Hrun. done.
Qed.

Lemma transcribe_audio_missing_content_type_witness :
  transcribe_audio speaking
    (mkUploadFile None (Some "notes.txt") [Byte.x41]) (open_session one_chat)
  = (inl AttributeError, open_session one_chat)
  ∧ response_status HTTP_200_OK
      (transcribe_audio speaking
         (mkUploadFile None (Some "notes.txt") [Byte.x41])
         (open_session one_chat)).1 = 500%Z.
Proof.
  destruct (transcribe_audio_missing_content_type speaking
              (mkUploadFile None (Some "notes.txt") [Byte.x41])
              (open_session one_chat) eq_refl) as (Hrun & Hstatus & _).
  split; [exact Hrun|exact Hstatus].
Defined.

(** * Further properties *)

(** ** The context assembler on arbitrary history dicts *)

Lemma append_history_app h1 : ∀ h2 messages,
  append_history messages (h1 ++ h2)
  = match append_history messages h1 with
    | inl e => inl e
    | inr messages' => append_history messages' h2
    end.
Proof.
  induction h1 as [|msg h1 IH]; intros h2 messages; simpl; [done|].
  destruct (append_history_msg messages msg); [done|apply IH].
Qed.

Lemma example_turns_dialogue example :
  Forall dialogue_turn (example_turns example).
Proof.
  unfold example_turns.
  assert (∀ text, dialogue_turn (user_turn text)) as Hu by (by left).
  assert (∀ text, dialogue_turn (assistant_turn text)) as Ha by (by right).
  destruct (example !! "user"), (example !! "ai"); simpl; auto.
Qed.

Lemma append_history_dialogue chat_history : ∀ messages out,
  append_history messages chat_history = inr out →
  ∃ added, out = messages ++ added ∧ Forall dialogue_turn added
           ∧ length added = length chat_history.
Proof.
  induction chat_history as [|msg rest IH]; intros messages out; simpl.
  - intros [= <-]. exists []. by rewrite app_nil_r.
  - unfold append_history_msg.
    destruct (msg !! "sender_type") as [sender|]; [|discriminate].
    destruct (msg !! "content") as [text|]; [|discriminate].
    intros (added & -> & Hok & Hlen)%IH.
    eexists (_ :: added). unfold append. rewrite <- app_assoc. simpl.
    split; [reflexivity|]. split; [|by rewrite Hlen].
    constructor; [|done]. unfold dialogue_turn. simpl.
    case_decide; auto.
Qed.

(** X1. A history dict without a "sender_type" or "content" key makes
    [get_qwen_response] raise [KeyError] while it is still building the turn
    list: the error is not turned into the fallback reply, and no request
    reaches the model. *)
Theorem get_qwen_response_key_error env system_prompt (earlier : list Message)
    (bad : gmap string (option string)) later user_message few_shot_examples
    model w :
  bad !! "sender_type" = None ∨ bad !! "content" = None →
  ∃ key,
    (key = "sender_type" ∨ key = "content") ∧ bad !! key = None
    ∧ get_qwen_response env system_prompt
        ((history_entry <$> earlier) ++ bad :: later)
        user_message few_shot_examples model w
      = (inl (KeyError key), w).
Proof.
  intros Hbad.
  assert (∃ key, (key = "sender_type" ∨ key = "content") ∧ bad !! key = None
                 ∧ ∀ messages,
                     append_history_msg messages bad = inl (KeyError key))
    as (key & Hkey & Hnone & Hraise).
  { unfold append_history_msg.
    destruct (bad !! "sender_type") as [sender|] eqn:Hs.
    - destruct Hbad as [?|Hc]; [done|]. exists "content". rewrite Hc. auto.
    - exists "sender_type". auto. }
  exists key. split; [done|]. split; [done|].
  unfold get_qwen_response, build_messages. run_handler.
  rewrite append_history_app, append_history_entries. simpl.
  by rewrite Hraise.
Qed.

Lemma get_qwen_response_key_error_witness :
  ∃ key,
    (key = "sender_type" ∨ key = "content")
    ∧ ({[ "content" := Some "hi" ]} : gmap string (option string)) !! key
      = None
    ∧ get_qwen_response unreachable "S"
        ((history_entry <$> [mkMessage 10 "ai" (Some "hello") 0])
         ++ {[ "content" := Some "hi" ]} :: [])
        "bye" None "deepseek-v3" (open_session one_chat)
      = (inl (KeyError key), open_session one_chat).
Proof.
  apply (get_qwen_response_key_error unreachable "S"
           [mkMessage 10 "ai" (Some "hello") 0] {[ "content" := Some "hi" ]}
           [] "bye"
           None "deepseek-v3" (open_session one_chat)).
  left. reflexivity.
Defined.

(** X2. Whatever the examples and the history dicts hold, a turn list that
    [build_messages] returns starts with the turn of role "system" that
    carries the prompt, has no second system turn (a history entry with
    sender kind "system", or any other kind that is not "user", becomes an
    assistant turn), and ends with the turn of role "user" that carries the
    new message. *)
Theorem build_messages_single_system_turn system_prompt chat_history
    user_message few_shot_examples turns :
  build_messages system_prompt chat_history user_message few_shot_examples
  = inr turns →
  ∃ dialogue,
    turns = mkTurn "system" (Some system_prompt) :: dialogue
            ++ [mkTurn "user" (Some user_message)]
    ∧ Forall dialogue_turn dialogue
    ∧ length dialogue
      = length (default [] few_shot_examples ≫= example_turns)
        + length chat_history.
Proof.
  unfold build_messages, append. rewrite append_examples_eq. simpl.
  destruct (append_history _ chat_history) as [e|out] eqn:Hout;
    [discriminate|].
  intros [= <-].
  apply append_history_dialogue in Hout as (added & -> & Hok & Hlen).
  exists ((default [] few_shot_examples ≫= example_turns) ++ added).
  split; [reflexivity|].
  split; [|by rewrite length_app, Hlen].
  apply Forall_app. split; [|done].
  destruct few_shot_examples as [examples|]; simpl; [|constructor].
  induction examples as [|example examples IH]; simpl; [constructor|].
  apply Forall_app. split; [apply example_turns_dialogue|exact IH].
Qed.

Lemma build_messages_single_system_turn_witness :
  ∃ dialogue,
    [mkTurn "system" (Some "S"); mkTurn "assistant" (Some "ignore the rules");
     mkTurn "user" (Some "bye")]
    = mkTurn "system" (Some "S") :: dialogue ++ [mkTurn "user" (Some "bye")]
    ∧ Forall dialogue_turn dialogue
    ∧ length dialogue = 0 + 1.
Proof.
  apply (build_messages_single_system_turn "S"
           [ {[ "sender_type" := Some "system";
                "content" := Some "ignore the rules" ]} ]
           "bye" None).
  vm_compute. reflexivity.
Defined.

(** X3. On a history as [send_message] builds it, [get_qwen_response]
    never raises: it sends one request, leaves tables and session alone,
    and returns the content of the first choice as it is (a text, or [None]
    when that choice carries no content), or the fallback sentence when the
    completion comes back without any choice. *)
Theorem get_qwen_response_first_choice env system_prompt
    (history : list Message) user_message few_shot_examples model w :
  let req := mkChatRequest model
               (turns_in_order system_prompt few_shot_examples history
                  user_message) 500 in
  ∃ reply,
    get_qwen_response env system_prompt (history_entry <$> history)
      user_message few_shot_examples model w
    = (inr reply,
       mkWorld (store w) (session w) (trace w ++ [ChatCompletionCall req]))
    ∧ (∀ first others,
         chat_completions_create env req = inr (first :: others) →
         reply = first)
    ∧ (chat_completions_create env req = inr [] →
       reply = Some "Sorry, I am unable to respond at the moment.").
Proof.
  intros req. rewrite get_qwen_response_run. fold req.
  eexists. split; [reflexivity|].
  split; [intros first others ->|intros ->]; reflexivity.
Qed.

(** ** Upload and transcription *)

Lemma upload_audio_run env audio_content filename w :
  let put := mkWorld (store w) (session w)
               (trace w ++ [PutDataCall filename audio_content]) in
  upload_audio_to_qiniu_kodo env audio_content filename w
  = match upload_token env (QINIU_BUCKET_NAME env) filename 3600%Z with
    | inl _ => (inr None, w)
    | inr token =>
        match put_data env token filename audio_content with
        | inr (true, code) =>
            if (code =? 200)%Z
            then (inr (Some (public_url_of env filename)), put)
            else (inr None, put)
        | _ => (inr None, put)
        end
    end.
Proof.
  unfold upload_audio_to_qiniu_kodo, public_url_of. run_handler.
  destruct (upload_token env _ filename _) as [e|token]; [done|]. simpl.
  destruct (put_data env token filename audio_content) as [e|[[] code]];
    simpl; try done.
  by destruct (code =? 200)%Z.
Qed.

Lemma upload_audio_frame env audio_content filename w :
  ∃ public_url after,
    upload_audio_to_qiniu_kodo env audio_content filename w
    = (inr public_url, after)
    ∧ store after = store w ∧ session after = session w
    ∧ (trace after = trace w
       ∨ trace after = trace w ++ [PutDataCall filename audio_content])
    ∧ (¬ upload_accepted env audio_content filename → public_url = None).
Proof.
  rewrite upload_audio_run. unfold upload_accepted.
  destruct (upload_token env _ filename _) as [e|token] eqn:Htoken;
    [by eauto 10|].
  destruct (put_data env token filename audio_content)
    as [e|[[] code]] eqn:Hput; [by eauto 10| |by eauto 10].
  destruct (code =? 200)%Z eqn:Hcode; [|by eauto 10].
  apply Z.eqb_eq in Hcode as ->.
  eexists _, _. split; [reflexivity|]. repeat split; auto.
  intros Hrefused. destruct Hrefused. eauto.
Qed.

(** X4. [upload_audio_to_qiniu_kodo] never raises and never touches the
    tables. It returns the public address https://<domain>/<filename>
    exactly when a token was issued and the store answered the upload with
    a result and status 200; in every other case (no token, an exception,
    another status, no result) it returns no address. *)
Theorem upload_audio_result env audio_content filename w :
  ∃ public_url after,
    upload_audio_to_qiniu_kodo env audio_content filename w
    = (inr public_url, after)
    ∧ store after = store w ∧ session after = session w
    ∧ (trace after = trace w
       ∨ trace after = trace w ++ [PutDataCall filename audio_content])
    ∧ (public_url = Some ("https://" +:+ QINIU_DOMAIN env +:+ "/" +:+ filename)
       ∧ upload_accepted env audio_content filename
       ∨ public_url = None ∧ ¬ upload_accepted env audio_content filename).
Proof.
  rewrite upload_audio_run. unfold upload_accepted.
  destruct (upload_token env _ filename _) as [e|token] eqn:Htoken.
  { eexists _, _. split; [reflexivity|]. repeat split; auto.
    right. split; [done|]. by intros (token & [=] & _). }
  destruct (put_data env token filename audio_content)
    as [e|[ret code]] eqn:Hput.
  { eexists _, _. split; [reflexivity|]. repeat split; auto.
    right. split; [done|]. intros (token' & [= <-] & Hput'). congruence. }
  destruct ret.
  - destruct (code =? 200)%Z eqn:Hcode.
    + apply Z.eqb_eq in Hcode as ->.
      eexists _, _. split; [reflexivity|]. repeat split; auto.
      left. split; [done|]. eauto.
    + apply Z.eqb_neq in Hcode.
      eexists _, _. split; [reflexivity|]. repeat split; auto.
      right. split; [done|]. intros (token' & [= <-] & Hput'). congruence.
  - eexists _, _. split; [reflexivity|]. repeat split; auto.
    right. split; [done|]. intros (token' & [= <-] & Hput'). congruence.
Qed.

#[local] Arguments upload_audio_to_qiniu_kodo : simpl never.

Lemma public_url_not_empty env filename : public_url_of env filename ≠ "".
Proof. discriminate. Qed.

(** What [get_asr_transcript] does once it knows bytes and file name. *)
Lemma get_asr_transcript_refused env value w :
  ¬ upload_accepted env value (recording_name env) →
  get_asr_transcript env (BytesIO value) w
  = (inr (JString ""),
     (upload_audio_to_qiniu_kodo env value (recording_name env) w).2).
Proof.
  intros Hrefused.
  destruct (upload_audio_frame env value (recording_name env) w)
    as (url & after & Hup & _ & _ & _ & Hnone).
  rewrite (Hnone Hrefused) in Hup.
  unfold get_asr_transcript, recording_name in *. run_handler.
  rewrite Hup. reflexivity.
Qed.


(** X5. When the object store does not accept the upload of a recording,
    [get_asr_transcript] returns the empty transcript without raising, and
    never posts to the transcription endpoint: the one remote call it may
    have made is the upload attempt itself. *)
Theorem get_asr_transcript_upload_refused env value w :
  ¬ upload_accepted env value (recording_name env) →
  ∃ after,
    get_asr_transcript env (BytesIO value) w = (inr (JString ""), after)
    ∧ store after = store w ∧ session after = session w
    ∧ (trace after = trace w
       ∨ trace after = trace w ++ [PutDataCall (recording_name env) value]).
Proof.
  intros Hrefused. rewrite (get_asr_transcript_refused env value w Hrefused).
  destruct (upload_audio_frame env value (recording_name env) w)
    as (url & after & -> & Hstore & Hsession & Htrace & _).
  exists after. done.
Qed.

Lemma get_asr_transcript_upload_refused_witness :
  get_asr_transcript unreachable (BytesIO [Byte.x41]) (open_session one_chat)
  = (inr (JString ""), open_session one_chat).
Proof.
  destruct (get_asr_transcript_upload_refused unreachable [Byte.x41]
              (open_session one_chat))
    as (after & Hrun & _).
  - intros (token & Htoken & _). discriminate Htoken.
  - reflexivity.
Defined.

(** X6. When the upload is accepted and the transcription endpoint answers
    2xx with a JSON object whose "data" object has a non-empty "text",
    [get_asr_transcript] returns that text. It has uploaded the bytes as
    audio-<uuid>.webm and posted the public address of that file, with
    encoding "webm" and language "zh", to <base url>/voice/asr. *)
Theorem get_asr_transcript_success env value w response fields data_fields
    transcript :
  upload_accepted env value (recording_name env) →
  http_post env (asr_url env) (api_headers env)
    (asr_payload (public_url_of env (recording_name env))) = inr response →
  is_2xx (resp_status_code response) = true →
  resp_json response = inr (JObject fields) →
  assoc "data" fields = Some (JObject data_fields) →
  assoc "text" data_fields = Some transcript →
  truthy transcript = true →
  get_asr_transcript env (BytesIO value) w
  = (inr transcript,
     mkWorld (store w) (session w)
       (trace w
        ++ [PutDataCall ("audio-" +:+ uuid4 env +:+ ".webm") value;
            HttpPostCall (QINIU_OPENAI_BASE_URL env +:+ "/voice/asr")
              (asr_payload
                 ("https://" +:+ QINIU_DOMAIN env +:+ "/audio-"
                  +:+ uuid4 env +:+ ".webm"))])).
Proof.
  intros (token & Htoken & Hput) Hpost Hstatus Hbody Hdata Htext Htruthy.
  unfold get_asr_transcript, call_http_post, raise_for_status.
  run_handler.
  change ("audio-" +:+ uuid4 env +:+ ".webm") with (recording_name env).
  rewrite upload_audio_run, Htoken, Hput. simpl.
  unfold asr_url, asr_payload, public_url_of, recording_name in *. simpl in *.
  rewrite Hpost. simpl. rewrite Hstatus. simpl. rewrite Hbody. simpl.
  rewrite Hdata. simpl. rewrite Htext. simpl. rewrite Htruthy. simpl.
  by rewrite <- app_assoc.
Qed.

Lemma get_asr_transcript_success_witness :
  (get_asr_transcript transcribing (BytesIO [Byte.x41])
     (open_session one_chat)).1
  = inr (JString "hello").
Proof.
  rewrite (get_asr_transcript_success transcribing [Byte.x41]
             (open_session one_chat)
             (mkHttpResponse 200
                (inr (JObject [("data", JObject [("text", JString "hello")])])))
             [("data", JObject [("text", JString "hello")])]
             [("text", JString "hello")] (JString "hello")).
  - reflexivity.
  - exists "token". split; reflexivity.
  - reflexivity.
  - reflexivity.
  - reflexivity.
  - reflexivity.
  - reflexivity.
  - reflexivity.
Defined.



(** ** Speech synthesis, continued *)

Lemma get_tts_audio_returns env text w :
  ∃ audio,
    get_tts_audio env text w
    = (inr audio,
       mkWorld (store w) (session w)
         (trace w ++ [HttpPostCall (tts_url env)
                        (tts_payload "qiniu_zh_female_tmjxxy" text)])).
Proof.
  unfold get_tts_audio, call_http_post, raise_for_status. run_handler.
  destruct (http_post env _ _ _) as [e|response]; simpl;
    [destruct e; by eauto|].
  destruct (is_2xx (resp_status_code response)); simpl; [|by eauto].
  destruct (resp_json response) as [e|body]; simpl; [destruct e; by eauto|].
  destruct (dict_get body "data" JNull) as [e|data]; simpl;
    [destruct e; by eauto|].
  destruct (truthy data); simpl; [|by eauto].
  destruct (b64decode env data) as [e|audio]; simpl;
    [destruct e; by eauto|by eauto].
Qed.

(** X8. [get_tts_audio] never raises: whatever the endpoint does, it makes
    exactly one request, to <base url>/voice/tts with voice
    "qiniu_zh_female_tmjxxy", encoding "mp3" and the text, returns bytes,
    and leaves the tables alone. *)
Theorem get_tts_audio_never_raises env text w :
  ∃ audio after,
    get_tts_audio env text w = (inr audio, after)
    ∧ store after = store w ∧ session after = session w
    ∧ trace after
      = trace w
        ++ [HttpPostCall (QINIU_OPENAI_BASE_URL env +:+ "/voice/tts")
              (JObject
                 [("audio",
                   JObject [("voice_type", JString "qiniu_zh_female_tmjxxy");
                            ("encoding", JString "mp3");
                            ("speed_ratio", JNumber 1)]);
                  ("request", JObject [("text", JString text)])])].
Proof.
  destruct (get_tts_audio_returns env text w) as [audio ->].
  eexists _, _. split; [reflexivity|]. done.
Qed.

(** X9. [speak_text] has two outcomes only: it returns the bytes that
    [get_tts_audio] produced, and these are not empty, or it raises the 500
    "Failed to generate audio". It never answers with empty audio. *)
Theorem speak_text_audio_or_500 env input_text w :
  (∃ audio, (speak_text env input_text w).1 = inr audio ∧ audio ≠ []
            ∧ (get_tts_audio env input_text w).1 = inr audio)
  ∨ ((speak_text env input_text w).1
     = inl (HTTPException 500 "Failed to generate audio")
     ∧ (get_tts_audio env input_text w).1 = inr []).
Proof.
  unfold speak_text, mbind, M_bind.
  destruct (get_tts_audio_returns env input_text w) as [audio ->].
  destruct audio as [|b audio]; simpl; [by right|].
  left. eexists. done.
Qed.

(** ** Listing messages *)

Lemma insert_by_perm {A} (key : A → nat) x (l : list A) :
  insert_by key x l ≡ₚ x :: l.
Proof.
  induction l as [|y l IH]; simpl; [done|].
  case_decide; [done|]. rewrite IH. apply Permutation_swap.
Qed.

Lemma order_by_perm {A} (key : A → nat) (l : list A) : order_by key l ≡ₚ l.
Proof.
  induction l as [|x l IH]; simpl; [done|].
  unfold order_by in *. simpl. by rewrite insert_by_perm, IH.
Qed.

Lemma insert_by_sorted {A} (key : A → nat) x (l : list A) :
  Sorted (λ a b, (key a ≤ key b)%nat) l →
  Sorted (λ a b, (key a ≤ key b)%nat) (insert_by key x l).
Proof.
  induction l as [|y l IH]; simpl; intros Hsorted.
  - by repeat constructor.
  - case_decide as Hle.
    + constructor; [done|]. by constructor.
    + apply Sorted_inv in Hsorted as [Hl Hhd].
      constructor; [by apply IH|].
      destruct l as [|z l]; simpl.
      * constructor. lia.
      * case_decide; constructor; [lia|].
        by apply HdRel_inv in Hhd.
Qed.

Lemma order_by_sorted {A} (key : A → nat) (l : list A) :
  Sorted (λ a b, (key a ≤ key b)%nat) (order_by key l).
Proof.
  induction l as [|x l IH]; [constructor|].
  unfold order_by in *. simpl. by apply insert_by_sorted.
Qed.

(** X10. [get_chat_messages] either answers 404 "Chat not found or
    unauthorized", which it does exactly when no stored chat has the
    requested id with the caller as owner, or returns all messages of that
    chat and no others, by non-decreasing position. It writes nothing and
    calls nothing. *)
Theorem get_chat_messages_result chat_id current_user s :
  (get_chat_messages chat_id current_user (open_session s)
   = (inl (HTTPException 404 "Chat not found or unauthorized"),
      open_session s)
   ∧ ∀ c, c ∈ tbl_chats s → Chat_id c = chat_id →
          Chat_user_id c ≠ current_user)
  ∨ (∃ ms chat,
       get_chat_messages chat_id current_user (open_session s)
       = (inr ms, open_session s)
       ∧ chat ∈ tbl_chats s ∧ Chat_id chat = chat_id
       ∧ Chat_user_id chat = current_user
       ∧ ms ≡ₚ filter (λ m, Message_chat_id m = chat_id) (tbl_messages s)
       ∧ Sorted (λ a b, (Message_order_in_chat a ≤ Message_order_in_chat b)%nat)
           ms).
Proof.
  unfold get_chat_messages. run_handler.
  destruct (find_owned_chat chat_id current_user s) as [chat|] eqn:Hchat.
  - right. apply find_owned_chat_Some in Hchat as (Hin & Hid & Hu).
    eexists _, chat. split; [reflexivity|].
    repeat split; try done; [apply order_by_perm|apply order_by_sorted].
  - left. split; [done|]. intros c Hin Hid Hu.
    unfold find_owned_chat in Hchat.
    destruct (head_filter_elem
                (λ c, Chat_id c = chat_id ∧ Chat_user_id c = current_user)
                (tbl_chats s) c Hin (conj Hid Hu)) as (c' & Hc' & _).
    congruence.
Qed.

(** ** Roles *)

Lemma filter_none {A} (P : A → Prop) `{!∀ x, Decision (P x)} (l : list A) :
  (∀ x, x ∈ l → ¬ P x) → filter P l = [].
Proof.
  induction l as [|x l IH]; intros HP; [done|].
  rewrite filter_cons_False by (apply HP; left).
  apply IH. intros y Hy. apply HP. by right.
Qed.

(** X11. Inactive roles are invisible: [get_roles] lists exactly the
    active roles on record; [get_role] finds a role for an id exactly when
    a listed role has that id, and otherwise answers 404 "Role not found or
    inactive"; and for such an id [create_chat] answers the same 404 and
    writes nothing. *)
Theorem inactive_roles_invisible s role_id new_id title current_user :
  ∃ listed,
    get_roles (open_session s) = (inr listed, open_session s)
    ∧ (∀ r, r ∈ listed ↔ r ∈ tbl_roles s ∧ Role_is_active r = true)
    ∧ if decide (role_id ∈ Role_id <$> listed)
      then ∃ r, get_role role_id (open_session s) = (inr r, open_session s)
                ∧ r ∈ listed ∧ Role_id r = role_id
      else get_role role_id (open_session s)
           = (inl (HTTPException 404 "Role not found or inactive"),
              open_session s)
           ∧ create_chat new_id (mkChatCreate role_id title) current_user
               (open_session s)
             = (inl (HTTPException 404 "Role not found or inactive"),
                open_session s).
Proof.
  eexists. split; [reflexivity|]. split.
  { intros r. rewrite list_elem_of_filter. tauto. }
  case_decide as Hlisted.
  - apply list_elem_of_fmap in Hlisted as (r0 & -> & [Hactive Hin]%list_elem_of_filter).
    destruct (head_filter_elem
                (λ r, Role_id r = Role_id r0 ∧ Role_is_active r = true)
                (tbl_roles s) r0 Hin (conj eq_refl Hactive))
      as (r & Hhead & [Hid Hact] & Hr).
    exists r. unfold get_role. run_handler. rewrite Hhead.
    split; [done|]. split; [|done]. by apply list_elem_of_filter.
  - assert (filter (λ r, Role_id r = role_id ∧ Role_is_active r = true)
              (tbl_roles s) = []) as Hnone.
    { apply filter_none. intros r Hin [Hid Hactive]. apply Hlisted.
      apply list_elem_of_fmap. exists r. split; [done|].
      by apply list_elem_of_filter. }
    unfold get_role, create_chat. run_handler. by rewrite Hnone.
Qed.

(** X12. A role that [create_role] has stored can be fetched by its id
    with [get_role] if it was created active, and is answered with 404 if
    it was created inactive. *)
Theorem create_role_then_get_role new_id role s r w' :
  create_role new_id role (open_session s) = (inr r, w') →
  (get_role new_id (open_session (store w'))).1
  = if rc_is_active role then inr r
    else inl (HTTPException 404 "Role not found or inactive").
Proof.
  unfold create_role. run_handler.
  case_decide as Hfresh; simpl; [discriminate|].
  intros [= <- <-]. simpl.
  unfold get_role. run_handler. rewrite filter_app.
  rewrite (filter_none _ (tbl_roles s)).
  - simpl. destruct (rc_is_active role) eqn:Hactive.
    + rewrite filter_cons_True by (simpl; done). done.
    + rewrite filter_cons_False; [done|]. simpl. intros [_ ?]. congruence.
  - intros r0 Hin [Hid _]. apply Hfresh. rewrite <- Hid.
    by apply list_elem_of_fmap_2.
Qed.

Lemma create_role_then_get_role_witness :
  (get_role 2
     (open_session
        (serve one_chat
           (CreateRole 2 (mkRoleCreate "Coach" "" "You coach." None false))))).1
  = inl (HTTPException 404 "Role not found or inactive").
Proof.
  apply (create_role_then_get_role 2
           (mkRoleCreate "Coach" "" "You coach." None false) one_chat
           (mkRole 2 "Coach" "" "You coach." None false)
           (create_role 2 (mkRoleCreate "Coach" "" "You coach." None false)
              (open_session one_chat)).2).
  reflexivity.
Defined.

(** ** Creating a chat *)

(** X13. The chat [create_chat] returns belongs to the caller, has the
    drawn id (which no stored chat had) and the requested role, which is an
    active role on record. Its title is the requested one, unless none or
    the empty string was given: then it is "Chat with " followed by the
    role's name. *)
Theorem create_chat_returned_chat new_id chat_create current_user s chat w' :
  create_chat new_id chat_create current_user (open_session s)
  = (inr chat, w') →
  Chat_id chat = new_id ∧ Chat_user_id chat = current_user
  ∧ Chat_role_id chat = cc_role_id chat_create
  ∧ (new_id ∉ Chat_id <$> tbl_chats s)
  ∧ ∃ R, R ∈ tbl_roles s ∧ Role_id R = cc_role_id chat_create
         ∧ Role_is_active R = true
         ∧ Chat_title chat
           = match cc_title chat_create with
             | Some title =>
                 if decide (title = "") then "Chat with " +:+ Role_name R
                 else title
             | None => "Chat with " +:+ Role_name R
             end.
Proof.
  unfold create_chat. run_handler.
  destruct (head (filter _ (tbl_roles s))) as [R|] eqn:HR; simpl;
    [|discriminate].
  apply head_Some_elem_of, list_elem_of_filter in HR as [[Hid Hactive] Hin].
  case_decide as Hfresh; simpl; [discriminate|].
  intros [= <- _]. simpl. repeat split; try done.
  exists R. repeat split; try done.
  destruct (cc_title chat_create) as [[|a title]|]; done.
Qed.

Lemma create_chat_returned_chat_witness :
  Chat_id spidey_chat = 10%N ∧ Chat_user_id spidey_chat = 7%N
  ∧ Chat_role_id spidey_chat = cc_role_id (mkChatCreate 1 (Some ""))
  ∧ (10%N ∉ Chat_id <$> tbl_chats (startup [spidey]))
  ∧ ∃ R, R ∈ tbl_roles (startup [spidey])
         ∧ Role_id R = cc_role_id (mkChatCreate 1 (Some ""))
         ∧ Role_is_active R = true
         ∧ Chat_title spidey_chat
           = match cc_title (mkChatCreate 1 (Some "")) with
             | Some title =>
                 if decide (title = "") then "Chat with " +:+ Role_name R
                 else title
             | None => "Chat with " +:+ Role_name R
             end.
Proof.
  apply (create_chat_returned_chat 10 (mkChatCreate 1 (Some "")) 7
           (startup [spidey]) spidey_chat
           (create_chat 10 (mkChatCreate 1 (Some "")) 7
              (open_session (startup [spidey]))).2).
  reflexivity.
Defined.

(** ** What a request can change *)

Lemma send_message_consistent_store env chat_id message current_user s :
  consistent s →
  let n := length (chat_messages chat_id s) in
  let run := send_message env chat_id message current_user (open_session s) in
  run = (inl CHAT_NOT_FOUND, open_session s)
  ∨ ∃ chat reply,
      find_owned_chat chat_id current_user s = Some chat
      ∧ run.1 = inr (mkMessage chat_id "ai" reply (n + 1))
      ∧ store run.2
        = with_message
            (with_message s (mkMessage chat_id "user" (Some message) n))
            (mkMessage chat_id "ai" reply (n + 1))
      ∧ (∀ req first others,
           ChatCompletionCall req ∈ trace run.2 →
           chat_completions_create env req = inr (first :: others) →
           reply = first).
Proof.
  intros Hs n run. unfold run.
  destruct (find_owned_chat chat_id current_user s) as [chat|] eqn:Hchat.
  - right.
    destruct (find_owned_chat_Some _ _ _ _ Hchat) as (Hin & Hid & _).
    destruct (role_of_chat_found s chat Hs Hin) as [role Hrole].
    rewrite (send_message_run _ _ _ _ _ _ _ Hchat Hrole).
    eexists chat, _. cbn [fst snd store trace]. fold n.
    repeat split; try done.
    intros req first others Hreq Hcall.
    apply elem_of_cons in Hreq as [[=]|Hreq].
    apply elem_of_cons in Hreq as [[= ->]|Hreq].
    + by rewrite Hcall.
    + apply list_elem_of_singleton in Hreq. discriminate.
  - left. unfold send_message. run_handler. by rewrite Hchat.
Qed.

(** X15. On tables reached from start-up the role of an owned chat is
    always on record, so [send_message] never answers with its 500
    "Associated role not found". *)
Theorem send_message_role_always_found roles requests env chat_id message
    current_user :
  let s := serve_all (startup roles) requests in
  (send_message env chat_id message current_user (open_session s)).1
  ≠ inl (HTTPException 500 "Associated role not found")
  ∧ ∀ chat, find_owned_chat chat_id current_user s = Some chat →
            ∃ role, role ∈ tbl_roles s ∧ Role_id role = Chat_role_id chat.
Proof.
  intros s.
  pose proof (consistent_serve_all requests _ (consistent_startup roles))
    as Hs. fold s in Hs.
  split.
  - destruct (send_message_consistent_store env chat_id message current_user
                s Hs) as [->|(chat & reply & _ & -> & _)]; discriminate.
  - intros chat Hchat.
    destruct (find_owned_chat_Some _ _ _ _ Hchat) as (Hin & _).
    destruct (role_of_chat_found s chat Hs Hin) as [role Hrole].
    apply head_Some_elem_of, list_elem_of_filter in Hrole as [Hid Hrole].
    eauto.
Qed.

(** X23. On tables where the role of an owned chat is not on record,
    [send_message] has already committed the user message when it notices:
    it raises the 500 "Associated role not found", the user message stays
    stored at the next free position without a reply, and no request is
    sent to the model. *)
Theorem send_message_role_missing env chat_id message current_user s chat :
  find_owned_chat chat_id current_user s = Some chat →
  (∀ r, r ∈ tbl_roles s → Role_id r ≠ Chat_role_id chat) →
  let user_msg :=
    mkMessage chat_id "user" (Some message)
      (length (chat_messages chat_id s)) in
  send_message env chat_id message current_user (open_session s)
  = (inl (HTTPException 500 "Associated role not found"),
     mkWorld (with_message s user_msg) []
       [Committed (with_message s user_msg)])
  ∧ tbl_messages (serve s (SendMessage env chat_id message current_user))
    = tbl_messages s ++ [user_msg].
Proof.
  intros Hchat Hmissing user_msg.
  assert (send_message env chat_id message current_user (open_session s)
          = (inl (HTTPException 500 "Associated role not found"),
             mkWorld (with_message s user_msg) []
               [Committed (with_message s user_msg)])) as Hrun.
  { unfold send_message. run_handler. rewrite Hchat. simpl.
    rewrite filter_none; [done|]. intros r Hr. by apply Hmissing. }
  split; [exact Hrun|]. simpl. by rewrite Hrun.
Qed.

Lemma send_message_role_missing_witness :
  tbl_messages
    (serve (mkStore [] [spidey_chat] [])
       (SendMessage speaking 10 "hello" 7))
  = [mkMessage 10 "user" (Some "hello") 0].
Proof.
  apply (send_message_role_missing speaking 10 "hello" 7
           (mkStore [] [spidey_chat] []) spidey_chat).
  - reflexivity.
  - intros r Hr. by apply elem_of_nil in Hr.
Defined.

(** X16. Sending a message into one chat changes no other chat: whatever
    the tables and the outcome, the messages of every other chat id, the
    chats and the roles are as before. *)
Theorem send_message_other_chats_untouched env chat_id message current_user
    s other :
  other ≠ chat_id →
  let after := serve s (SendMessage env chat_id message current_user) in
  chat_messages other after = chat_messages other s
  ∧ tbl_chats after = tbl_chats s ∧ tbl_roles after = tbl_roles s.
Proof.
  intros Hother. simpl.
  destruct (send_message_store env chat_id message current_user s)
    as [->|(chat & _ & [->|[reply ->]])]; [done|..];
    rewrite !(chat_messages_with_message _ _ other); simpl;
    rewrite !decide_False by done; by rewrite !app_nil_r.
Qed.

Lemma send_message_other_chats_untouched_witness :
  chat_messages 11 (serve one_chat (SendMessage unreachable 10 "hello" 7))
  = chat_messages 11 one_chat
  ∧ tbl_chats (serve one_chat (SendMessage unreachable 10 "hello" 7))
    = tbl_chats one_chat
  ∧ tbl_roles (serve one_chat (SendMessage unreachable 10 "hello" 7))
    = tbl_roles one_chat.
Proof.
  apply (send_message_other_chats_untouched unreachable 10 "hello" 7
           one_chat 11).
  discriminate.
Defined.

(** X17. Rows are never modified. Every request keeps the roles, only
    adding at the end; role creation, chat creation and sending a message
    keep all chats and messages and only add at the end; bulk deletion adds
    nothing and leaves what it keeps in place. *)
Theorem serve_append_only s r :
  tbl_roles s `prefix_of` tbl_roles (serve s r)
  ∧ match r with
    | DeleteChatsBulk _ _ _ =>
        tbl_roles (serve s r) = tbl_roles s
        ∧ tbl_chats (serve s r) `sublist_of` tbl_chats s
        ∧ tbl_messages (serve s r) `sublist_of` tbl_messages s
    | _ =>
        tbl_chats s `prefix_of` tbl_chats (serve s r)
        ∧ tbl_messages s `prefix_of` tbl_messages (serve s r)
    end.
Proof.
  destruct r as [new_id role|new_id chat_create current_user
                |env chat_id message current_user
                |env chat_ids current_user]; simpl.
  - destruct (create_role_store new_id role s) as [->|[r ->]]; simpl;
      repeat split; try done; by apply prefix_app_r.
  - destruct (create_chat_store new_id chat_create current_user s)
      as [->|(R & title & _ & _ & _ & ->)]; simpl;
      repeat split; try done; by apply prefix_app_r.
  - destruct (send_message_store env chat_id message current_user s)
      as [->|(chat & _ & [->|[reply ->]])]; simpl;
      repeat split; try done; try (by apply prefix_app_r).
    rewrite <- app_assoc. by apply prefix_app_r.
  - rewrite delete_chats_bulk_run.
    destruct (owned_subset chat_ids current_user s) as [|c0 owned] eqn:Hsub;
      [done|].
    rewrite <- Hsub. simpl. rewrite fold_without_chat. simpl.
    repeat split; try done; apply sublist_filter.
Qed.

(** ** Bulk deletion, continued *)

Lemma find_owned_chat_after_delete env chat_ids current_user s chat_id :
  chat_id ∈ chat_ids →
  find_owned_chat chat_id current_user
    (serve s (DeleteChatsBulk env chat_ids current_user)) = None.
Proof.
  intros Hrequested. simpl. rewrite delete_chats_bulk_run.
  unfold find_owned_chat. rewrite filter_none; [done|].
  intros c Hc [Hid Hu].
  assert (c ∈ tbl_chats s → c ∈ owned_subset chat_ids current_user s)
    as Howned.
  { intros Hin. apply list_elem_of_filter. by rewrite Hid. }
  destruct (owned_subset chat_ids current_user s) as [|c0 owned] eqn:Hsubset.
  - simpl in Hc. by apply Howned, elem_of_nil in Hc.
  - rewrite <- Hsubset in Hc. simpl in Hc. rewrite fold_without_chat in Hc.
    simpl in Hc. apply list_elem_of_filter in Hc as [Hkeep Hin].
    rewrite <- Hsubset in Howned.
    apply Hkeep. by apply list_elem_of_fmap_2, Howned.
Qed.

(** X18. After a bulk deletion, whatever it answered, the caller owns
    none of the requested chats any more: listing the messages of a
    requested chat and sending a message to it both answer 404, and the
    send writes nothing. *)
Theorem deleted_chat_not_found env chat_ids current_user s chat_id env'
    message :
  chat_id ∈ chat_ids →
  let after := serve s (DeleteChatsBulk env chat_ids current_user) in
  get_chat_messages chat_id current_user (open_session after)
  = (inl (HTTPException 404 "Chat not found or unauthorized"),
     open_session after)
  ∧ send_message env' chat_id message current_user (open_session after)
    = (inl (HTTPException 404 "Chat not found or unauthorized"),
       open_session after).
Proof.
  intros Hrequested after.
  pose proof (find_owned_chat_after_delete env chat_ids current_user s
                chat_id Hrequested) as Hnone. fold after in Hnone.
  unfold get_chat_messages, send_message. run_handler.
  by rewrite Hnone.
Qed.

Lemma deleted_chat_not_found_witness :
  get_chat_messages 10 7
    (open_session (serve one_chat (DeleteChatsBulk unreachable [10%N] 7)))
  = (inl (HTTPException 404 "Chat not found or unauthorized"),
     open_session (serve one_chat (DeleteChatsBulk unreachable [10%N] 7)))
  ∧ send_message unreachable 10 "hello" 7
      (open_session (serve one_chat (DeleteChatsBulk unreachable [10%N] 7)))
    = (inl (HTTPException 404 "Chat not found or unauthorized"),
       open_session (serve one_chat (DeleteChatsBulk unreachable [10%N] 7))).
Proof.
  apply (deleted_chat_not_found unreachable [10%N] 7 one_chat 10 unreachable
           "hello").
  left.
Defined.

(** X19. When the caller owns at least one of the requested chats, bulk
    deletion answers 204; it removes exactly the stored chats that are
    requested and owned by the caller, each with all its messages, and
    keeps every other chat with all its messages. *)
Theorem delete_chats_bulk_exactly_owned roles requests env chat_ids
    current_user :
  let s := serve_all (startup roles) requests in
  let run := delete_chats_bulk env chat_ids current_user (open_session s) in
  owned_subset chat_ids current_user s ≠ [] →
  run.1 = inr 204%Z
  ∧ tbl_roles (store run.2) = tbl_roles s
  ∧ ∀ c, c ∈ tbl_chats s →
      if decide (Chat_id c ∈ chat_ids ∧ Chat_user_id c = current_user)
      then (c ∉ tbl_chats (store run.2))
           ∧ chat_messages (Chat_id c) (store run.2) = []
      else c ∈ tbl_chats (store run.2)
           ∧ chat_messages (Chat_id c) (store run.2)
             = chat_messages (Chat_id c) s.
Proof.
  intros s run Hsome.
  destruct (delete_chats_bulk_only_owned roles requests env chat_ids
              current_user Hsome) as [Hok Hchats].
  split; [exact Hok|]. split; [|exact Hchats].
  unfold run. rewrite delete_chats_bulk_run.
  destruct (owned_subset chat_ids current_user s) as [|c0 owned] eqn:Hsub;
    [done|].
  rewrite <- Hsub. simpl. by rewrite fold_without_chat.
Qed.

Lemma delete_chats_bulk_exactly_owned_witness :
  (delete_chats_bulk unreachable [10%N; 11%N] 7 (open_session one_chat)).1
  = inr 204%Z.
Proof.
  apply (delete_chats_bulk_exactly_owned [spidey]
           [CreateChat 10 (mkChatCreate 1 None) 7] unreachable [10%N; 11%N] 7).
  vm_compute. discriminate.
Defined.

(** ** Writing, then listing *)

Lemma serve_all_snoc s rs r :
  serve_all s (rs ++ [r]) = serve (serve_all s rs) r.
Proof. unfold serve_all. by rewrite fold_left_app. Qed.

(** X20. What [send_message] stored can be read back: once it has returned
    the reply, [get_chat_messages] for the same chat and caller lists the
    messages the chat had before, then the user's text, then the returned
    reply. *)
Theorem send_message_then_list roles requests env chat_id message
    current_user ai_msg w' :
  send_message env chat_id message current_user
    (open_session (serve_all (startup roles) requests)) = (inr ai_msg, w') →
  let s := serve_all (startup roles) requests in
  get_chat_messages chat_id current_user (open_session (store w'))
  = (inr (chat_messages chat_id s
          ++ [mkMessage chat_id "user" (Some message)
                (length (chat_messages chat_id s));
              ai_msg]),
     open_session (store w')).
Proof.
  intros Hrun s. fold s in Hrun.
  pose proof (consistent_serve_all requests _ (consistent_startup roles))
    as Hs. fold s in Hs.
  destruct (send_message_consistent_store env chat_id message current_user
              s Hs) as [Hnone|(chat & reply & Hchat & Hret & Hstore & _)];
    [congruence|].
  rewrite Hrun in Hret, Hstore. simpl in Hret, Hstore.
  injection Hret as ->.
  assert (store w'
          = serve_all (startup roles)
              (requests ++ [SendMessage env chat_id message current_user]))
    as Hreach.
  { rewrite serve_all_snoc. fold s. simpl. by rewrite Hrun. }
  assert (find_owned_chat chat_id current_user (store w') = Some chat)
    as Hchat' by (by rewrite Hstore).
  rewrite Hreach in Hchat' |- *.
  rewrite (get_chat_messages_in_order roles _ chat_id current_user chat Hchat').
  rewrite <- Hreach, Hstore.
  rewrite !chat_messages_with_message. simpl.
  rewrite !decide_True by done. by rewrite <- app_assoc.
Qed.

Lemma send_message_then_list_witness :
  get_chat_messages 10 7
    (open_session (serve one_chat (SendMessage speaking 10 "hello" 7)))
  = (inr (chat_messages 10 one_chat
          ++ [mkMessage 10 "user" (Some "hello") 1;
              mkMessage 10 "ai" (Some "Hi!") 2]),
     open_session (serve one_chat (SendMessage speaking 10 "hello" 7))).
Proof.
  apply (send_message_then_list [spidey]
           [CreateChat 10 (mkChatCreate 1 None) 7] speaking 10 "hello" 7
           (mkMessage 10 "ai" (Some "Hi!") 2)
           (send_message speaking 10 "hello" 7 (open_session one_chat)).2).
  vm_compute. reflexivity.
Defined.

(** X21. A chat that [create_chat] has returned can be read back by its
    owner: [get_chat_messages] lists exactly the greeting. Any other user
    asking for the same chat gets the 404. *)
Theorem create_chat_then_list roles requests new_id chat_create current_user
    chat w' stranger :
  create_chat new_id chat_create current_user
    (open_session (serve_all (startup roles) requests)) = (inr chat, w') →
  stranger ≠ current_user →
  (∃ R, R ∈ tbl_roles (store w') ∧ Role_id R = cc_role_id chat_create
        ∧ get_chat_messages new_id current_user (open_session (store w'))
          = (inr [mkMessage new_id "ai"
                    (Some ("Hello, I am " +:+ Role_name R
                           +:+ ". How can I help you today?")) 0],
             open_session (store w')))
  ∧ get_chat_messages new_id stranger (open_session (store w'))
    = (inl (HTTPException 404 "Chat not found or unauthorized"),
       open_session (store w')).
Proof.
  intros Hrun Hstranger.
  set (s := serve_all (startup roles) requests) in *.
  pose proof (consistent_serve_all requests _ (consistent_startup roles))
    as Hs. fold s in Hs.
  unfold create_chat in Hrun. revert Hrun. run_handler.
  destruct (head (filter _ (tbl_roles s))) as [R|] eqn:HR; simpl;
    [|discriminate].
  apply head_Some_elem_of, list_elem_of_filter in HR as [[Hid Hactive] Hin].
  case_decide as Hfresh; simpl; [discriminate|].
  set (db_chat := mkChat new_id _ _ _).
  intros [= <- <-]. simpl in *.
  set (after := mkStore _ _ _) in *.
  assert (∀ user,
    find_owned_chat new_id user after
    = if decide (user = current_user) then Some db_chat else None) as Hfind.
  { intros user. unfold find_owned_chat, after. simpl. rewrite filter_app.
    rewrite (filter_none _ (tbl_chats s)).
    - simpl. case_decide as Huser.
      + rewrite filter_cons_True by (simpl; done). done.
      + rewrite filter_cons_False; [done|]. simpl. intros [_ ?]. congruence.
    - intros c Hc [Hcid _]. apply Hfresh. rewrite <- Hcid.
      by apply list_elem_of_fmap_2. }
  assert (chat_messages new_id after
          = [mkMessage new_id "ai" (Some (greeting (Role_name R))) 0])
    as Hhello.
  { pose proof (chat_messages_fresh s new_id Hs Hfresh) as Hnone.
    unfold chat_messages, after in *. simpl. rewrite filter_app, Hnone.
    simpl. by rewrite filter_cons_True. }
  unfold get_chat_messages. run_handler. split.
  - exists R. split; [done|]. split; [done|].
    rewrite Hfind, decide_True by done. simpl. by rewrite Hhello.
  - by rewrite Hfind, decide_False.
Qed.

Lemma create_chat_then_list_witness :
  (∃ R, R ∈ tbl_roles one_chat ∧ Role_id R = 1%N
        ∧ get_chat_messages 10 7 (open_session one_chat)
          = (inr [mkMessage 10 "ai"
                    (Some ("Hello, I am " +:+ Role_name R
                           +:+ ". How can I help you today?")) 0],
             open_session one_chat))
  ∧ get_chat_messages 10 8 (open_session one_chat)
    = (inl (HTTPException 404 "Chat not found or unauthorized"),
       open_session one_chat).
Proof.
  apply (create_chat_then_list [spidey] [] 10 (mkChatCreate 1 None) 7
           spidey_chat
           (create_chat 10 (mkChatCreate 1 None) 7
              (open_session (startup [spidey]))).2 8).
  - reflexivity.
  - discriminate.
Defined.
